(** * A model of the weasyprint server ([server.py])

    The server is one aiohttp handler, [render_pdf], a URL fetcher that
    guards what the rendering engine may load, [URLFetcher], and two helpers,
    [save_part_to_file] and [stream_file].

    The handler is modelled as a program in a small monad that threads the
    state of the operating system (a file tree, the working directory and
    the state of [tempfile]), may raise a Python exception, and emits the
    events an observer sees: log records, calls into the rendering engine
    and the creation of the temporary directory.  The rendering engine
    (weasyprint), the multipart reader (aiohttp) and [urllib.parse.urlparse]
    are outside the repository: the first and the last are parameters of the
    development, the second is part of the request. *)

From Stdlib Require Import ZArith NArith Ascii String List Lia Bool.
From stdpp Require Import gmap strings list fin_maps.

Local Open Scope Z_scope.
Local Open Scope list_scope.
Local Open Scope stdpp_scope.

(** ** Python values *)

Abbreviation bytes := (list Byte.byte).
Abbreviation key := (list string).

(** An instance of Python's [Exception]: the class name and the message; an
    [aiohttp.web.HTTPException] carries the status it answers with. *)
Inductive exn :=
| Exc (cls : string) (msg : string)
| HTTPException (status : Z) (text : string).

Inductive result (A : Type) :=
| Ok (a : A)
| Raise (e : exn).
Arguments Ok {A} a.
Arguments Raise {A} e.

Definition ValueError : string -> exn := Exc "ValueError".
Definition TypeError : string -> exn := Exc "TypeError".
Definition AttributeError : string -> exn := Exc "AttributeError".
Definition FileNotFoundError : string -> exn := Exc "FileNotFoundError".
Definition FileExistsError : string -> exn := Exc "FileExistsError".
Definition NotADirectoryError : string -> exn := Exc "NotADirectoryError".
Definition IsADirectoryError : string -> exn := Exc "IsADirectoryError".

(** ** Strings: [str.startswith], [str.endswith], [str.split], [str.join] *)

Definition slash : ascii := "/"%char.

(** [s.startswith(pre)] *)
Fixpoint startswith (s pre : string) {struct pre} : bool :=
  match pre with
  | EmptyString => true
  | String c pre' =>
      match s with
      | EmptyString => false
      | String d s' => Ascii.eqb d c && startswith s' pre'
      end
  end.

Fixpoint endswith_slash (s : string) : bool :=
  match s with
  | EmptyString => false
  | String c s' =>
      match s' with
      | EmptyString => Ascii.eqb c slash
      | String _ _ => endswith_slash s'
      end
  end.

(** [s.split('/')]: never empty, [''.split('/') = ['']]. *)
Fixpoint split_slash (s : string) : list string :=
  match s with
  | EmptyString => [EmptyString]
  | String c s' =>
      if Ascii.eqb c slash then EmptyString :: split_slash s'
      else match split_slash s' with
           | [] => [String c EmptyString]
           | h :: t => String c h :: t
           end
  end.

(** ['/'.join(l)] *)
Fixpoint join_slash (l : list string) : string :=
  match l with
  | [] => ""
  | x :: l' =>
      match l' with
      | [] => x
      | _ :: _ => x +:+ "/" +:+ join_slash l'
      end
  end.

Fixpoint repeat_slash (n : nat) : string :=
  match n with
  | O => ""
  | S n' => String slash (repeat_slash n')
  end.

(** ** [os.path] (posixpath) *)

(** [os.path.join(a, b)] *)
Definition os_path_join (a b : string) : string :=
  if startswith b "/" then b
  else if String.eqb a "" || endswith_slash a then a +:+ b
  else a +:+ "/" +:+ b.

(** [os.path.isabs] *)
Definition isabs (path : string) : bool := startswith path "/".

(** The number of leading slashes [normpath] keeps: POSIX allows one or
    two, and treats three or more as one. *)
Definition initial_slashes (path : string) : nat :=
  if startswith path "/" then
    if startswith path "//" && negb (startswith path "///") then 2%nat else 1%nat
  else 0%nat.

(** One turn of the loop of [normpath] over the components. *)
Definition normpath_step (initial : nat) (new_comps : list string) (comp : string)
  : list string :=
  if String.eqb comp "" || String.eqb comp "." then new_comps
  else if negb (String.eqb comp "..")
          || (Nat.eqb initial 0 && bool_decide (new_comps = []))
          || bool_decide (last new_comps = Some "..")
       then new_comps ++ [comp]
       else removelast new_comps.

Definition normpath_comps (path : string) : list string :=
  fold_left (normpath_step (initial_slashes path)) (split_slash path) [].

(** [os.path.normpath(path)] *)
Definition normpath (path : string) : string :=
  if String.eqb path "" then "."
  else
    let p := repeat_slash (initial_slashes path) +:+ join_slash (normpath_comps path) in
    if String.eqb p "" then "." else p.

(** [os.path.abspath(path)], with [cwd] the value of [os.getcwd()]. *)
Definition abspath (cwd path : string) : string :=
  normpath (if isabs path then path else os_path_join cwd path).

(** [os.path.basename(p)] *)
Definition basename (p : string) : string := List.last (split_slash p) "".

(** ** The URL fetcher *)

(** The named tuple that [urllib.parse.urlparse] returns. *)
Record ParseResult := mkParseResult {
  scheme : string;
  netloc : string;
  path : string;
  params : string;
  query : string;
  fragment : string
}.

(** What a call of the fetcher does: it ends in the tail call
    [default_url_fetcher(url)], or it raises. *)
Inductive fetch :=
| default_url_fetcher (url : string)
| Raises (e : exn).

Section URLFetcher.

(** [urllib.parse.urlparse]; it raises [ValueError] on some malformed
    network locations. *)
Variable urlparse : string -> result ParseResult.
(** [os.getcwd()] *)
Variable getcwd : string.

(** [URLFetcher(valid_paths).__call__(url)] *)
Definition URLFetcher_call (valid_paths : list string) (url : string) : fetch :=
  match urlparse url with
  | Raise e => Raises e
  | Ok parsed =>
      if String.eqb (scheme parsed) "data" then default_url_fetcher url
      else if (String.eqb (scheme parsed) "" || String.eqb (scheme parsed) "file")
              && negb (String.eqb (path parsed) "")
      then
        if bool_decide (abspath getcwd (path parsed) ∈ valid_paths)
        then default_url_fetcher url
        else Raises (ValueError "Only known path allowed")
      else Raises (ValueError "External resources are not allowed")
  end.

End URLFetcher.

(** ** The operating system

    A file tree without symbolic links: a node is stored under the list of
    the names that lead to it from the root, and the root itself (the empty
    list) is a directory that always exists. *)

Inductive Node :=
| File (content : bytes)
| Dir.

Record OS := mkOS {
  fs : gmap key Node;
  cwd : key;                (* the working directory of the process *)
  tempdir : string;         (* [tempfile.gettempdir()] *)
  tmp_names : list string   (* the names [tempfile] will draw, in order *)
}.

Definition set_fs (f : gmap key Node) (os : OS) : OS :=
  mkOS f (cwd os) (tempdir os) (tmp_names os).

Definition set_tmp_names (l : list string) (os : OS) : OS :=
  mkOS (fs os) (cwd os) (tempdir os) l.

(** Path lookup as the kernel does it: every component of [comps] is
    entered as a directory, starting in [cur].  The exception of a failed
    lookup has the class that Python gives it; its message is the component
    at which the lookup stops. *)
Fixpoint walk (f : gmap key Node) (cur : key) (comps : list string) : result key :=
  match comps with
  | [] => Ok cur
  | c :: rest =>
      if String.eqb c "" || String.eqb c "." then walk f cur rest
      else if String.eqb c ".." then walk f (removelast cur) rest
      else match f !! (cur ++ [c]) with
           | Some Dir => walk f (cur ++ [c]) rest
           | Some (File _) => Raise (NotADirectoryError c)
           | None => Raise (FileNotFoundError c)
           end
  end.

Definition start_of (os : OS) (p : string) : key :=
  if isabs p then [] else cwd os.

(** The directory that holds the last component of a path, and that
    component. *)
Definition resolve_parent (os : OS) (p : string) : result (key * string) :=
  if String.eqb p "" then Raise (FileNotFoundError p)
  else
    let comps := split_slash p in
    match walk (fs os) (start_of os p) (removelast comps) with
    | Raise e => Raise e
    | Ok dk => Ok (dk, List.last comps "")
    end.

Definition names_directory (c : string) : bool :=
  String.eqb c "" || String.eqb c "." || String.eqb c "..".

(** The node a path names, if any ([os.stat]). *)
Definition stat (os : OS) (p : string) : result (key * Node) :=
  match resolve_parent os p with
  | Raise e => Raise e
  | Ok (dk, c) =>
      if String.eqb c "" || String.eqb c "." then Ok (dk, Dir)
      else if String.eqb c ".." then Ok (removelast dk, Dir)
      else match fs os !! (dk ++ [c]) with
           | Some n => Ok (dk ++ [c], n)
           | None => Raise (FileNotFoundError p)
           end
  end.

(** ** Events *)

Inductive Level := INFO | ERROR.

Inductive LogMsg :=
| Msg (text : string)
| Processing_part (name : option string)
| Form_data_processed (keys : list string)
| File_not_found_after_writing_to (filepath : string)
| Saved_part (name : option string) (filepath : string).

(** The [url_fetcher] argument of the engine. *)
Inductive Fetcher :=
| URLFetcher (valid_paths : list string)
| engine_default_fetcher.

(** A [weasyprint.CSS] object. *)
Inductive Stylesheet :=
| CSS_filename (filename : string) (url_fetcher : Fetcher)
| CSS_string (text : string).

(** The calls into weasyprint. *)
Inductive EngineCall :=
| FontConfiguration
| HTML (filename : string) (url_fetcher : Fetcher)
| CSS (s : Stylesheet)
| write_pdf (html : string) (target : string) (stylesheets : list Stylesheet)
    (attachments : list string).

Inductive Event :=
| Log (level : Level) (msg : LogMsg) (exc_info : option exn)
| Engine (call : EngineCall) (r : result bytes)
| TemporaryDirectory (name : string) (k : key).

(** ** The monad of the handler *)

Record Run (A : Type) := mkRun {
  outcome : result A;
  final : OS;
  emitted : list Event
}.
Arguments mkRun {A} outcome final emitted.
Arguments outcome {A} r.
Arguments final {A} r.
Arguments emitted {A} r.

Definition M (A : Type) : Type := OS -> Run A.

#[export] Instance M_ret : MRet M := λ A a os, mkRun (Ok a) os [].

#[export] Instance M_bind : MBind M := λ A B f m os,
  let r := m os in
  match outcome r with
  | Raise e => mkRun (Raise e) (final r) (emitted r)
  | Ok a =>
      let r' := f a (final r) in
      mkRun (outcome r') (final r') (emitted r ++ emitted r')
  end.

Definition raise {A} (e : exn) : M A := λ os, mkRun (Raise e) os [].

Definition emit (ev : Event) : M unit := λ os, mkRun (Ok tt) os [ev].

Definition lift {A} (f : OS -> result A) : M A := λ os, mkRun (f os) os [].

(** [try: m  except Exception as e: handler(e)  else: orelse(a)] *)
Definition try_except {A B} (m : M A) (handler : exn -> M B) (orelse : A -> M B) : M B :=
  λ os,
  let r := m os in
  let r' := match outcome r with
            | Raise e => handler e (final r)
            | Ok a => orelse a (final r)
            end in
  mkRun (outcome r') (final r') (emitted r ++ emitted r').

(** [try: m  finally: cleanup]; an exception of the cleanup replaces the
    outcome of [m]. *)
Definition try_finally {A} (m : M A) (cleanup : M unit) : M A := λ os,
  let r := m os in
  let r' := cleanup (final r) in
  mkRun (match outcome r' with Raise e => Raise e | Ok _ => outcome r end)
        (final r') (emitted r ++ emitted r').

Definition logger_info (m : LogMsg) : M unit := emit (Log INFO m None).
Definition logger_error (m : LogMsg) : M unit := emit (Log ERROR m None).
(** [logger.exception(msg)] inside an [except]: level ERROR, with the
    exception and its traceback. *)
Definition logger_exception (m : LogMsg) (e : exn) : M unit := emit (Log ERROR m (Some e)).

Definition is_class (cls : string) (e : exn) : bool :=
  match e with
  | Exc c _ => String.eqb c cls
  | HTTPException _ _ => false
  end.

(** ** Files and directories *)

Fixpoint strip_trailing_empty (comps : list string) : list string :=
  match comps with
  | [] => []
  | c :: rest =>
      match strip_trailing_empty rest with
      | [] => if String.eqb c "" then [] else [c]
      | c' :: l => c :: c' :: l
      end
  end.

(** [os.mkdir(p)]; trailing slashes do not count.  The result is the place
    of the new directory in the tree. *)
Definition os_mkdir (p : string) : M key := λ os,
  if String.eqb p "" then mkRun (Raise (FileNotFoundError p)) os []
  else
    let comps := strip_trailing_empty (split_slash p) in
    match walk (fs os) (start_of os p) (removelast comps) with
    | Raise e => mkRun (Raise e) os []
    | Ok dk =>
        let c := List.last comps "" in
        if names_directory c then mkRun (Raise (FileExistsError p)) os []
        else match fs os !! (dk ++ [c]) with
             | Some _ => mkRun (Raise (FileExistsError p)) os []
             | None => mkRun (Ok (dk ++ [c])) (set_fs (<[dk ++ [c] := Dir]> (fs os)) os) []
             end
    end.

(** [open(p, 'wb')]: the file is created, or truncated when it exists.
    The result stands for the file object. *)
Definition open_wb (p : string) : M key := λ os,
  match resolve_parent os p with
  | Raise e => mkRun (Raise e) os []
  | Ok (dk, c) =>
      if names_directory c then mkRun (Raise (IsADirectoryError p)) os []
      else match fs os !! (dk ++ [c]) with
           | Some Dir => mkRun (Raise (IsADirectoryError p)) os []
           | _ => mkRun (Ok (dk ++ [c])) (set_fs (<[dk ++ [c] := File []]> (fs os)) os) []
           end
  end.

(** [file_.write(chunk)] *)
Definition file_write (file_ : key) (chunk : bytes) : M unit := λ os,
  match fs os !! file_ with
  | Some (File content) =>
      mkRun (Ok tt) (set_fs (<[file_ := File (content ++ chunk)]> (fs os)) os) []
  | _ => mkRun (Raise (ValueError "I/O operation on closed file.")) os []
  end.

(** [os.path.exists(p)] *)
Definition os_path_exists (p : string) : M bool :=
  lift (λ os, Ok (match stat os p with Ok _ => true | Raise _ => false end)).

(** [open(p, 'rb')], as the bytes of the file. *)
Definition open_rb (p : string) : M bytes :=
  lift (λ os, match stat os p with
              | Raise e => Raise e
              | Ok (_, Dir) => Raise (IsADirectoryError p)
              | Ok (_, File content) => Ok content
              end).

(** [shutil.rmtree(p)] *)
Definition shutil_rmtree (p : string) : M unit := λ os,
  match stat os p with
  | Raise e => mkRun (Raise e) os []
  | Ok (_, File _) => mkRun (Raise (NotADirectoryError p)) os []
  | Ok (k, Dir) =>
      mkRun (Ok tt) (set_fs (filter (λ kv, ¬ k `prefix_of` kv.1) (fs os)) os) []
  end.

(** ** [tempfile] *)

(** The loop of [tempfile.mkdtemp()]: the candidate names are tried in
    turn until [os.mkdir] does not find the name taken. *)
Fixpoint mkdtemp_from (dir : string) (names : list string) : M (string * key) :=
  match names with
  | [] => raise (FileExistsError "No usable temporary directory name found")
  | name :: rest =>
      let file := os_path_join dir ("tmp" +:+ name) in
      (λ os, mkRun (Ok tt) (set_tmp_names rest os) []);;
      try_except (os_mkdir file)
        (λ e, if is_class "FileExistsError" e then mkdtemp_from dir rest else raise e)
        (λ k, mret (file, k))
  end.

Definition mkdtemp : M (string * key) :=
  λ os, mkdtemp_from (tempdir os) (tmp_names os) os.

(** [TemporaryDirectory.cleanup]: a directory that is already gone is not
    an error. *)
Definition cleanup (name : string) : M unit :=
  try_except (shutil_rmtree name)
    (λ e, if is_class "FileNotFoundError" e then mret tt else raise e)
    mret.

(** [with tempfile.TemporaryDirectory() as temp_dir: body] *)
Definition with_TemporaryDirectory {A} (body : string -> M A) : M A :=
  created ← mkdtemp;
  emit (TemporaryDirectory created.1 created.2);;
  try_finally (body created.1) (cleanup created.1).

(** ** The request and the response *)

(** A body part as aiohttp hands it over: the name and the file name of
    its [Content-Disposition] header, either of which may be missing, and
    the chunks that [read_chunk] returns. *)
Record Part := mkPart {
  part_name : option string;
  part_filename : option string;
  part_chunks : list bytes
}.

(** [request.multipart()] returns a reader or raises; [reader.next()]
    returns the next part or raises, and [None] at the end. *)
Record Request := mkRequest {
  multipart : result (list (result Part))
}.

Inductive Response :=
| web_Response (status : Z) (text : string)
| web_StreamResponse (status : Z) (reason : string)
    (headers : list (string * string)) (body : list bytes).

Definition response_status (r : Response) : Z :=
  match r with
  | web_Response s _ => s
  | web_StreamResponse s _ _ _ => s
  end.

(** ** Python's [dict], which keeps the order of insertion *)

Abbreviation dict := (list (string * string)).

(** [d[k] = v]: a key that is present keeps its place. *)
Fixpoint dict_set (d : dict) (k v : string) : dict :=
  match d with
  | [] => [(k, v)]
  | (k', v') :: d' =>
      if String.eqb k' k then (k', v) :: d' else (k', v') :: dict_set d' k v
  end.

Fixpoint dict_get (d : dict) (k : string) : option string :=
  match d with
  | [] => None
  | (k', v') :: d' => if String.eqb k' k then Some v' else dict_get d' k
  end.

Definition dict_keys (d : dict) : list string := d.*1.
Definition dict_values (d : dict) : list string := d.*2.

(** ** The server *)

Definition CHUNK_SIZE : N := 65536.

Definition dq : string := String (Ascii.ascii_of_nat 34) "".
Definition nl : string := String (Ascii.ascii_of_nat 10) "".

(** The stylesheet of the branch without a [css] part. *)
Definition default_css : string :=
  nl +:+
  "                @font-face {" +:+ nl +:+
  "                    font-family: " +:+ dq +:+ "Zeitung Micro Pro" +:+ dq +:+ ";" +:+ nl +:+
  "                    src: url(file:///home/user/project/Zeitung-Micro-Pro.ttf) format("
    +:+ dq +:+ "truetype" +:+ dq +:+ ");" +:+ nl +:+
  "                }" +:+ nl +:+
  "                @font-face {" +:+ nl +:+
  "                    font-family: " +:+ dq +:+ "Tisa Pro" +:+ dq +:+ ";" +:+ nl +:+
  "                    src: url(file:///home/user/project/Tisa-Pro.ttf) format("
    +:+ dq +:+ "truetype" +:+ dq +:+ ");" +:+ nl +:+
  "                }" +:+ nl +:+
  "            ".

(** The test on the name of a part, for a part that has a name. *)
Definition accepted (name : string) : bool :=
  bool_decide (name ∈ ["html"; "css"])
  || startswith name "attachment."
  || startswith name "asset.".

(** The loop of [save_part_to_file]: chunks are written until
    [read_chunk] returns an empty one. *)
Fixpoint write_chunks (file_ : key) (chunks : list bytes) : M unit :=
  match chunks with
  | [] => mret tt
  | chunk :: rest =>
      match chunk with
      | [] => mret tt
      | _ :: _ => file_write file_ chunk;; write_chunks file_ rest
      end
  end.

Definition save_part_to_file (part : Part) (directory : string) : M string :=
  filepath ←
    match part_filename part with
    | None =>
        raise (TypeError "expected str, bytes or os.PathLike object, not NoneType")
    | Some filename => mret (os_path_join directory filename)
    end;
  file_ ← open_wb filepath;
  write_chunks file_ (part_chunks part);;
  found ← os_path_exists filepath;
  (if (found : bool) then mret tt
   else logger_error (File_not_found_after_writing_to filepath));;
  logger_info (Saved_part (part_name part) filepath);;
  mret filepath.

(** [outfile.read(CHUNK_SIZE)] until it returns nothing. *)
Fixpoint read_chunks (fuel : nat) (size : nat) (data : bytes) : list bytes :=
  match fuel with
  | O => []
  | S fuel' =>
      match take size data with
      | [] => []
      | b :: chunk => (b :: chunk) :: read_chunks fuel' size (drop size data)
      end
  end.

Definition stream_file (request : Request) (filename content_type : string)
  : M Response :=
  let headers :=
    [("Content-Type", content_type);
     ("Content-Disposition",
      "attachment; filename=" +:+ dq +:+ basename filename +:+ dq)] in
  content ← open_rb filename;
  mret (web_StreamResponse 200 "OK" headers
          (read_chunks (S (length content)) (N.to_nat CHUNK_SIZE) content)).

Definition healthcheck (request : Request) : M Response :=
  mret (web_Response 200 "OK").

Section Server.

(** weasyprint: what a call raises, or the document that [write_pdf]
    produces (the other calls produce nothing to look at). *)
Variable weasyprint : EngineCall -> OS -> result bytes.

Definition engine (call : EngineCall) : M unit := λ os,
  let r := weasyprint call os in
  mkRun (match r with Ok _ => Ok tt | Raise e => Raise e end) os [Engine call r].

(** [html.write_pdf(target, stylesheets=..., font_config=...,
    attachments=...)]: the document is rendered, then written to
    [target]. *)
Definition HTML_write_pdf (html target : string) (stylesheets : list Stylesheet)
    (attachments : list string) : M unit := λ os,
  let call := write_pdf html target stylesheets attachments in
  match weasyprint call os with
  | Raise e => mkRun (Raise e) os [Engine call (Raise e)]
  | Ok pdf =>
      let r := (file_ ← open_wb target; file_write file_ pdf) os in
      mkRun (outcome r) (final r)
        [Engine call (match outcome r with Ok _ => Ok pdf | Raise e => Raise e end)]
  end.

(** The [while True] loop of [render_pdf] over the parts. *)
Fixpoint read_parts (reader : list (result Part)) (temp_dir : string)
    (form_data : dict) : M dict :=
  match reader with
  | [] => mret form_data
  | Raise e :: _ => raise e
  | Ok part :: rest =>
      logger_info (Processing_part (part_name part));;
      match part_name part with
      | None =>
          raise (AttributeError "'NoneType' object has no attribute 'startswith'")
      | Some name =>
          if accepted name then
            filepath ← save_part_to_file part temp_dir;
            read_parts rest temp_dir (dict_set form_data name filepath)
          else read_parts rest temp_dir form_data
      end
  end.

Definition attachments_of (form_data : dict) : list string :=
  (filter (λ item, startswith item.1 "attachment." = true) form_data).*2.

(** The body of the [with] statement of [render_pdf]. *)
Definition render_in (request : Request) (reader : list (result Part))
    (temp_dir : string) : M Response :=
  form_data ← read_parts reader temp_dir [];
  logger_info (Form_data_processed (dict_keys form_data));;
  engine FontConfiguration;;
  match dict_get form_data "html" with
  | None =>
      logger_info (Msg "Bad request. No html file provided.");;
      mret (web_Response 400 "No html file provided.")
  | Some html =>
      engine (HTML html (URLFetcher (dict_values form_data)));;
      css ←
        match dict_get form_data "css" with
        | Some css_file =>
            let css := CSS_filename css_file (URLFetcher (dict_values form_data)) in
            engine (CSS css);; mret css
        | None =>
            let css := CSS_string default_css in
            engine (CSS css);; mret css
        end;
      let attachments := attachments_of form_data in
      let pdf_filename := os_path_join temp_dir "output.pdf" in
      try_except (HTML_write_pdf html pdf_filename [css] attachments)
        (λ e,
          logger_exception (Msg "PDF generation failed") e;;
          mret (web_Response 500 "PDF generation failed."))
        (λ _, stream_file request pdf_filename "application/pdf")
  end.

Definition render_pdf (request : Request) : M Response :=
  logger_info (Msg "Received request for PDF rendering.");;
  reader ← lift (λ _, multipart request);
  logger_info (Msg "Processing multipart data.");;
  with_TemporaryDirectory (render_in request reader).

End Server.

(** ** A model of [urllib.parse.urlparse] to run the fetcher on examples

    It covers URLs of printable ASCII characters: the scheme, the network
    location, the parameters of the last path segment, the query and the
    fragment.  The theorems on the fetcher hold for every [urlparse]. *)

Fixpoint span_until (stop : ascii -> bool) (s : string) : string * string :=
  match s with
  | EmptyString => (EmptyString, EmptyString)
  | String c s' =>
      if stop c then (EmptyString, s)
      else let r := span_until stop s' in (String c r.1, r.2)
  end.

Definition tail (s : string) : string :=
  match s with
  | EmptyString => EmptyString
  | String _ s' => s'
  end.

Fixpoint string_forallb (f : ascii -> bool) (s : string) : bool :=
  match s with
  | EmptyString => true
  | String c s' => f c && string_forallb f s'
  end.

Definition string_contains (c : ascii) (s : string) : bool :=
  negb (string_forallb (λ c', negb (Ascii.eqb c' c)) s).

Definition is_alpha (c : ascii) : bool :=
  let n := Ascii.nat_of_ascii c in
  ((65 <=? n) && (n <=? 90) || (97 <=? n) && (n <=? 122))%nat.

Definition is_scheme_char (c : ascii) : bool :=
  let n := Ascii.nat_of_ascii c in
  is_alpha c || ((48 <=? n) && (n <=? 57))%nat
  || Ascii.eqb c "+" || Ascii.eqb c "-" || Ascii.eqb c ".".

Definition lower_ascii (c : ascii) : ascii :=
  let n := Ascii.nat_of_ascii c in
  if ((65 <=? n) && (n <=? 90))%nat then Ascii.ascii_of_nat (n + 32) else c.

Fixpoint lower (s : string) : string :=
  match s with
  | EmptyString => EmptyString
  | String c s' => String (lower_ascii c) (lower s')
  end.

Definition uses_params : list string :=
  [""; "ftp"; "hdl"; "prospero"; "http"; "imap"; "https"; "shttp"; "rtsp";
   "rtspu"; "sip"; "sips"; "mms"; "sftp"; "tel"].

Definition urlparse_model (url : string) : result ParseResult :=
  let colon := span_until (Ascii.eqb ":") url in
  let with_scheme :=
    match url, colon.2 with
    | String c _, String _ after =>
        if negb (String.eqb colon.1 "") && is_alpha c
           && string_forallb is_scheme_char colon.1
        then (lower colon.1, after) else ("", url)
    | _, _ => ("", url)
    end in
  let with_netloc :=
    if startswith with_scheme.2 "//"
    then span_until (λ c, Ascii.eqb c "/" || Ascii.eqb c "?" || Ascii.eqb c "#")
           (tail (tail with_scheme.2))
    else ("", with_scheme.2) in
  let hash := span_until (Ascii.eqb "#") with_netloc.2 in
  let quest := span_until (Ascii.eqb "?") hash.1 in
  let segments := split_slash quest.1 in
  let semi := span_until (Ascii.eqb ";") (List.last segments "") in
  let with_params :=
    if bool_decide (with_scheme.1 ∈ uses_params) && string_contains ";" quest.1
    then if string_contains ";" (List.last segments "")
         then (join_slash (removelast segments ++ [semi.1]), tail semi.2)
         else (quest.1, "")
    else (quest.1, "") in
  if xorb (string_contains "[" with_netloc.1) (string_contains "]" with_netloc.1)
  then Raise (ValueError "Invalid IPv6 URL")
  else Ok (mkParseResult with_scheme.1 with_netloc.1 with_params.1 with_params.2
             (tail quest.2) (tail hash.2)).

(** ** Notions of the specification *)

Fixpoint no_slash (s : string) : bool :=
  match s with
  | EmptyString => true
  | String c s' => negb (Ascii.eqb c slash) && no_slash s'
  end.

(** A path component that names an entry: not empty, not [.] or [..],
    without a slash. *)
Definition proper_component (c : string) : Prop :=
  c ≠ "" ∧ c ≠ "." ∧ c ≠ ".." ∧ no_slash c = true.

(** An absolute path in normal form as far as its text goes: one or two
    leading slashes, then proper components separated by single slashes. *)
Definition lexically_normal (p : string) : Prop :=
  ∃ n comps, (n = 1%nat ∨ n = 2%nat) ∧ Forall proper_component comps
             ∧ p = repeat_slash n +:+ join_slash comps.

(** The fully resolved path of the specification, as [os.path.realpath]
    computes it: the path is followed from the root, and a component that
    is a symbolic link is replaced by the place the link leads to.  [links]
    lists the symbolic links of the machine, each with its resolved
    target. *)
Fixpoint realpath_walk (links : list (key * key)) (cur : key) (comps : list string)
  : key :=
  match comps with
  | [] => cur
  | c :: rest =>
      if String.eqb c "" || String.eqb c "." then realpath_walk links cur rest
      else if String.eqb c ".." then realpath_walk links (removelast cur) rest
      else
        let k := cur ++ [c] in
        realpath_walk links
          (match list_find (λ l, l.1 = k) links with
           | Some (_, l) => l.2
           | None => k
           end) rest
  end.

Definition realpath (links : list (key * key)) (p : string) : string :=
  "/" +:+ join_slash (realpath_walk links [] (split_slash p)).


(** The calls that render: everything but the construction of the font
    configuration, which the handler makes before it looks at the parts. *)
Definition is_render_call (ev : Event) : bool :=
  match ev with
  | Engine FontConfiguration _ => false
  | Engine _ _ => true
  | _ => false
  end.

(** The parts that a reader yields. *)
Definition reader_parts (reader : list (result Part)) : list Part :=
  omap (λ item, match item with Ok p => Some p | Raise _ => None end) reader.

(** The parts of a request. *)
Definition parts_of (request : Request) : list Part :=
  match multipart request with
  | Raise _ => []
  | Ok reader => reader_parts reader
  end.

Definition is_attachment (p : Part) : bool :=
  match part_name p with
  | Some name => startswith name "attachment."
  | None => false
  end.

Definition is_asset (p : Part) : bool :=
  match part_name p with
  | Some name => startswith name "asset."
  | None => false
  end.

(** The path [save_part_to_file] gives to a part in [directory]. *)
Definition path_in (directory : string) (p : Part) : string :=
  os_path_join directory (default "" (part_filename p)).

(** The status the client reads.  aiohttp sends the response that the
    handler returns; an exception that leaves the handler is answered with
    its own status when it is an [HTTPException], and with 500 otherwise. *)
Definition client_status (r : result Response) : Z :=
  match r with
  | Ok resp => response_status resp
  | Raise (HTTPException status _) => status
  | Raise (Exc _ _) => 500
  end.

(** ** Properties of runs *)

(** What the body of the handler does to the file tree at most: the
    working directory stays, and so does every directory. *)
Definition stable (os os' : OS) : Prop :=
  cwd os' = cwd os ∧ ∀ k, fs os !! k = Some Dir → fs os' !! k = Some Dir.

Definition preserves {A} (m : M A) : Prop := ∀ os, stable os (final (m os)).

(** Every event of every run of [m] satisfies [P]. *)
Definition emits {A} (P : Event → Prop) (m : M A) : Prop :=
  ∀ os, Forall P (emitted (m os)).

Definition is_log (ev : Event) : Prop :=
  match ev with
  | Log _ _ _ => True
  | _ => False
  end.

Definition not_workspace (ev : Event) : Prop :=
  match ev with
  | TemporaryDirectory _ _ => False
  | _ => True
  end.

(** The exceptions the handler raises by itself have a Python class. *)
Definition is_Exc (e : exn) : Prop :=
  match e with
  | Exc _ _ => True
  | HTTPException _ _ => False
  end.

(** The dictionary that the loop over the parts builds from [d]. *)
Definition form_data_of (temp_dir : string) (parts : list Part) (d : dict) : dict :=
  fold_left
    (λ d p, match part_name p with
            | Some name => if accepted name then dict_set d name (path_in temp_dir p) else d
            | None => d
            end)
    parts d.

Definition is_accepted (p : Part) : bool :=
  match part_name p with
  | Some name => accepted name
  | None => false
  end.

(** The outcome is a result, or an exception that satisfies [P]. *)
Definition raises_only {A} (P : exn → Prop) (m : M A) : Prop :=
  ∀ os e, outcome (m os) = Raise e → P e.

(** The bytes that the loop of [save_part_to_file] writes. *)
Fixpoint written (chunks : list bytes) : bytes :=
  match chunks with
  | [] => []
  | chunk :: rest =>
      match chunk with
      | [] => []
      | _ :: _ => chunk ++ written rest
      end
  end.

(** The stylesheet that [render_pdf] hands to [write_pdf]. *)
Definition stylesheet_of (form_data : dict) : Stylesheet :=
  match dict_get form_data "css" with
  | Some css_file => CSS_filename css_file (URLFetcher (dict_values form_data))
  | None => CSS_string default_css
  end.

(** [render_pdf] from the end of the loop over the parts to the end of the
    [with] statement. *)
Definition after_parts (weasyprint : EngineCall → OS → result bytes)
    (request : Request) (temp_dir : string) (form_data : dict) : M Response :=
  logger_info (Form_data_processed (dict_keys form_data));;
  engine weasyprint FontConfiguration;;
  match dict_get form_data "html" with
  | None =>
      logger_info (Msg "Bad request. No html file provided.");;
      mret (web_Response 400 "No html file provided.")
  | Some html =>
      engine weasyprint (HTML html (URLFetcher (dict_values form_data)));;
      css ←
        match dict_get form_data "css" with
        | Some css_file =>
            let css := CSS_filename css_file (URLFetcher (dict_values form_data)) in
            engine weasyprint (CSS css);; mret css
        | None =>
            let css := CSS_string default_css in
            engine weasyprint (CSS css);; mret css
        end;
      let attachments := attachments_of form_data in
      let pdf_filename := os_path_join temp_dir "output.pdf" in
      try_except (HTML_write_pdf weasyprint html pdf_filename [css] attachments)
        (λ e,
          logger_exception (Msg "PDF generation failed") e;;
          mret (web_Response 500 "PDF generation failed."))
        (λ _, stream_file request pdf_filename "application/pdf")
  end.

(** The headers of the streamed document. *)
Definition pdf_headers : list (string * string) :=
  [("Content-Type", "application/pdf");
   ("Content-Disposition", "attachment; filename=" +:+ dq +:+ "output.pdf" +:+ dq)].

Definition is_write_pdf (ev : Event) : Prop :=
  match ev with
  | Engine (write_pdf _ _ _ _) _ => True
  | _ => False
  end.



(** A test on the name of a part, false for a part without a name. *)
Definition named (P : string → bool) (p : Part) : bool :=
  match part_name p with
  | Some name => P name
  | None => false
  end.

Definition L_received : Event :=
  Log INFO (Msg "Received request for PDF rendering.") None.
Definition L_processing : Event :=
  Log INFO (Msg "Processing multipart data.") None.

(** ** Examples *)

(** A machine with the directories [/tmp] and [/srv], the latter the
    working directory, on which [tempfile] draws the name [ab12cd34]. *)
Definition example_os : OS :=
  mkOS (<[ ["tmp"] := Dir ]> (<[ ["srv"] := Dir ]> ∅)) ["srv"] "/tmp" ["ab12cd34"].

Definition pdf_bytes : bytes := String.list_byte_of_string "%PDF-1.7".

(** An engine that renders every document, and one whose [write_pdf]
    raises. *)
Definition weasyprint_ok : EngineCall → OS → result bytes := λ _ _, Ok pdf_bytes.

Definition weasyprint_broken : EngineCall → OS → result bytes := λ call _,
  match call with
  | write_pdf _ _ _ _ => Raise (Exc "OSError" "cannot load library 'pango-1.0-0'")
  | _ => Ok []
  end.

Definition part (name filename content : string) : Part :=
  mkPart (Some name) (Some filename) [String.list_byte_of_string content].

Definition request_of (parts : list Part) : Request := mkRequest (Ok (map Ok parts)).

Definition html_part : Part := part "html" "index.html" "<h1>Invoice</h1>".

(** A document with two attachments and an asset between them. *)
Definition request_with_attachments : Request :=
  request_of [html_part;
              part "attachment.terms" "terms.pdf" "terms";
              part "asset.logo" "logo.png" "logo";
              part "attachment.data" "data.csv" "1;2"].

(** Only a stylesheet, in a directory of its own. *)
Definition request_css_in_subdir : Request :=
  request_of [part "css" "styles/main.css" "h1 { color: red }"].

(** Only a stylesheet, sent as a plain form field: it has no file name. *)
Definition request_css_field : Request :=
  mkRequest (Ok [Ok (mkPart (Some "css") None
                       [String.list_byte_of_string "h1 { color: red }"])]).

(** Only a stylesheet. *)
Definition request_css_only : Request :=
  request_of [part "css" "main.css" "h1 { color: red }"].

(** The field name [attachment.a] comes twice. *)
Definition request_repeated_name : Request :=
  request_of [html_part;
              part "attachment.a" "first.txt" "1";
              part "attachment.b" "second.txt" "2";
              part "attachment.a" "third.txt" "3"].



(** The machine after [tempfile] has made the directory of a request. *)
Definition example_os_in_request : OS :=
  set_fs (<[ ["tmp"; "tmpab12cd34"] := Dir ]> (fs example_os)) example_os.

(** ** Further notions *)

(** A chunk of a streamed body: not empty, and no longer than [size]. *)
Definition chunk_ok (size : nat) (chunk : bytes) : Prop :=
  chunk ≠ [] ∧ (length chunk ≤ size)%nat.

(** A part that the loop of [render_pdf] skips: it has a name, and the name
    is none of the accepted ones. *)
Definition skipped (item : result Part) : bool :=
  match item with
  | Ok p =>
      match part_name p with
      | Some name => negb (accepted name)
      | None => false
      end
  | Raise _ => false
  end.

(** The last part of a request under a name. *)
Definition last_named (name : string) (parts : list Part) : option Part :=
  last (filter (λ p, part_name p = Some name) parts).




(** The calls into the engine among the events, in order, with what they
    returned or raised. *)
Definition engine_events (events : list Event) : list (EngineCall * result bytes) :=
  omap (λ ev, match ev with Engine call r => Some (call, r) | _ => None end) events.

Definition engine_calls (events : list Event) : list EngineCall :=
  (engine_events events).*1.

Definition succeeded (cr : EngineCall * result bytes) : Prop :=
  match cr.2 with
  | Ok _ => True
  | Raise _ => False
  end.

(** The calls into the engine that [render_pdf] makes for a dictionary,
    in the order of the code. *)
Definition engine_plan (temp_dir : string) (fd : dict) : list EngineCall :=
  FontConfiguration ::
  match dict_get fd "html" with
  | None => []
  | Some html =>
      [HTML html (URLFetcher (dict_values fd));
       CSS (stylesheet_of fd);
       write_pdf html (os_path_join temp_dir "output.pdf") [stylesheet_of fd]
         (attachments_of fd)]
  end.

(** The fetchers that a call hands to the engine. *)
Definition fetchers_of (call : EngineCall) : list Fetcher :=
  match call with
  | HTML _ f => [f]
  | CSS (CSS_filename _ f) => [f]
  | _ => []
  end.

(** The request without the parts that the loop skips. *)
Definition without_skipped (request : Request) : Request :=
  mkRequest (match multipart request with
             | Ok reader => Ok (filter (λ item, skipped item = false) reader)
             | Raise e => Raise e
             end).

(** The machine of the examples with a rendered document in [/tmp]. *)
Definition example_os_with_pdf : OS :=
  set_fs (<[ ["tmp"; "output.pdf"] := File pdf_bytes ]> (fs example_os)) example_os.

(** A part that comes in three chunks. *)
Definition chunked_part : Part :=
  mkPart (Some "asset.logo") (Some "logo.png")
    [String.list_byte_of_string "GIF"; String.list_byte_of_string "89";
     String.list_byte_of_string "a"].

(** A document that is sent twice, with a part the server does not know
    in between. *)
Definition parts_html_twice : list Part :=
  [part "html" "draft.html" "<p>draft</p>";
   part "comment" "note.txt" "please ignore";
   part "html" "final.html" "<p>final</p>"].

Definition request_html_twice : Request := request_of parts_html_twice.

(** A path that names a file. *)
Definition is_file (os : OS) (p : string) : Prop :=
  ∃ k content, stat os p = Ok (k, File content).


(** A path with a [.] or [..] component. *)
Definition dotted (p : string) : Prop :=
  "." ∈ split_slash p ∨ ".." ∈ split_slash p.

#[export] Instance dotted_dec p : Decision (dotted p).
Proof. unfold dotted. apply _. Defined.

(** The records that the loop of [render_pdf] logs for a part that it
    gets through. *)
Definition part_log (temp_dir : string) (p : Part) : list Event :=
  Log INFO (Processing_part (part_name p)) None ::
  (if is_accepted p
   then [Log INFO (Saved_part (part_name p) (path_in temp_dir p)) None]
   else []).

(** A document followed by a part whose header gives no name. *)
Definition nameless_part : Part :=
  mkPart None (Some "blob.bin") [String.list_byte_of_string "0000"].

Definition request_nameless : Request :=
  mkRequest (Ok [Ok html_part; Ok nameless_part]).


(** * Proofs *)

(** ** Strings *)

Lemma eqb_true (a b : string) : String.eqb a b = true ↔ a = b.
Proof. apply String.eqb_eq. Qed.

Lemma eqb_false (a b : string) : String.eqb a b = false ↔ a ≠ b.
Proof. apply String.eqb_neq. Qed.

Ltac string_cases :=
  repeat match goal with
    | H : String.eqb _ _ = true |- _ => apply eqb_true in H
    | H : String.eqb _ _ = false |- _ => apply eqb_false in H
    | H : _ || _ = true |- _ => apply orb_true_iff in H; destruct H
    | H : _ || _ = false |- _ => apply orb_false_iff in H; destruct H
    | H : _ && _ = true |- _ => apply andb_true_iff in H; destruct H
    | H : negb _ = true |- _ => apply negb_true_iff in H
    | H : negb _ = false |- _ => apply negb_false_iff in H
    end.

Lemma split_slash_nonempty s : split_slash s ≠ [].
Proof.
  destruct s as [|c s]; simpl; [done|].
  destruct (Ascii.eqb c slash); [done|]. by destruct (split_slash s).
Qed.

Lemma split_slash_no_slash s : Forall (λ c, no_slash c = true) (split_slash s).
Proof.
  induction s as [|c s IH]; simpl.
  - by repeat constructor.
  - destruct (Ascii.eqb c slash) eqn:Hc.
    + by constructor.
    + destruct (split_slash s) as [|h t].
      * repeat constructor. simpl. by rewrite Hc.
      * inversion IH; subst. constructor; [|done]. simpl. by rewrite Hc.
Qed.

Lemma app_cons c (a b : string) : String c a +:+ b = String c (a +:+ b).
Proof. reflexivity. Qed.

Lemma app_empty (b : string) : "" +:+ b = b.
Proof. reflexivity. Qed.

Lemma startswith_slash_app a b :
  startswith a "/" = true → startswith (a +:+ b) "/" = true.
Proof.
  destruct a as [|c a]; [done|]. by rewrite app_cons.
Qed.

(** ** [normpath] *)

Lemma Forall_removelast {A} (P : A → Prop) (l : list A) :
  Forall P l → Forall P (removelast l).
Proof.
  induction 1 as [|x l Hx Hl IH]; simpl; [constructor|].
  destruct l; [constructor|]. by constructor.
Qed.

Lemma last_Forall {A} (P : A → Prop) (l : list A) x :
  Forall P l → last l = Some x → P x.
Proof.
  intros Hl Hx. apply last_Some in Hx as [l' ->].
  by apply Forall_app in Hl as [_ Hl%Forall_inv].
Qed.

Lemma normpath_step_proper n acc comp :
  n ≠ 0%nat → no_slash comp = true →
  Forall proper_component acc → Forall proper_component (normpath_step n acc comp).
Proof.
  intros Hn Hs Hacc. unfold normpath_step.
  destruct (String.eqb comp "" || String.eqb comp ".") eqn:E1; [done|].
  string_cases.
  destruct (String.eqb comp "..") eqn:E2; simpl.
  - apply eqb_true in E2.
    destruct n; [done|]. simpl.
    case_bool_decide as Hl.
    + exfalso. apply (last_Forall _ _ _ Hacc) in Hl. by destruct Hl as (_ & _ & ? & _).
    + by apply Forall_removelast.
  - apply eqb_false in E2. apply Forall_app; split; [done|].
    by repeat constructor.
Qed.

Lemma normpath_fold_proper n comps acc :
  n ≠ 0%nat → Forall (λ c, no_slash c = true) comps →
  Forall proper_component acc →
  Forall proper_component (fold_left (normpath_step n) comps acc).
Proof.
  intros Hn Hc. revert acc.
  induction Hc as [|c comps Hc _ IH]; intros acc Hacc; simpl; [done|].
  apply IH. by apply normpath_step_proper.
Qed.

Lemma initial_slashes_abs p :
  isabs p = true → initial_slashes p = 1%nat ∨ initial_slashes p = 2%nat.
Proof.
  unfold isabs, initial_slashes. intros ->.
  destruct (_ && _); auto.
Qed.

Lemma normpath_absolute p : isabs p = true → lexically_normal (normpath p).
Proof.
  intros Habs. destruct (initial_slashes_abs p Habs) as [Hn|Hn].
  all: exists (initial_slashes p), (normpath_comps p).
  all: split; [rewrite Hn; auto|]; split.
  1,3: apply normpath_fold_proper; [by rewrite Hn|apply split_slash_no_slash|constructor].
  all: unfold normpath; destruct p as [|c p]; [done|].
  all: rewrite Hn; simpl; done.
Qed.

Lemma isabs_abspath_arg cwd p :
  isabs cwd = true → isabs (if isabs p then p else os_path_join cwd p) = true.
Proof.
  intros Hc. destruct (isabs p) eqn:Hp; [done|].
  unfold os_path_join. unfold isabs in Hp. rewrite Hp.
  destruct (_ || _); by apply startswith_slash_app.
Qed.

Lemma abspath_normal cwd p : isabs cwd = true → lexically_normal (abspath cwd p).
Proof. intros Hc. apply normpath_absolute. by apply isabs_abspath_arg. Qed.

(** ** The URL fetcher *)

Section URLFetcher_facts.

Variable urlparse : string → result ParseResult.
Variable getcwd : string.

Lemma URLFetcher_call_data valid_paths url parsed :
  urlparse url = Ok parsed → scheme parsed = "data" →
  URLFetcher_call urlparse getcwd valid_paths url = default_url_fetcher url.
Proof. unfold URLFetcher_call. by intros -> ->. Qed.

Lemma URLFetcher_call_local valid_paths url parsed :
  urlparse url = Ok parsed →
  scheme parsed = "" ∨ scheme parsed = "file" → path parsed ≠ "" →
  URLFetcher_call urlparse getcwd valid_paths url =
    if bool_decide (abspath getcwd (path parsed) ∈ valid_paths)
    then default_url_fetcher url
    else Raises (ValueError "Only known path allowed").
Proof.
  unfold URLFetcher_call. intros -> Hs Hp.
  apply eqb_false in Hp. rewrite Hp. by destruct Hs as [-> | ->].
Qed.

Lemma URLFetcher_call_other valid_paths url parsed :
  urlparse url = Ok parsed →
  scheme parsed ≠ "data" → scheme parsed ≠ "" → scheme parsed ≠ "file" →
  URLFetcher_call urlparse getcwd valid_paths url =
    Raises (ValueError "External resources are not allowed").
Proof.
  unfold URLFetcher_call. intros -> H1%eqb_false H2%eqb_false H3%eqb_false.
  by rewrite H1, H2, H3.
Qed.

End URLFetcher_facts.

(** C1, as the code has it: for a URL whose scheme is empty or [file] and
    whose path is not empty, the fetcher brings the path to the normal form
    of [os.path.abspath] (absolute; empty, [.] and [..] components and
    repeated slashes removed from the text; symbolic links are not looked
    at) and it passes the URL on to the default fetcher exactly when that
    normal form is one of the valid paths; otherwise it raises the
    [ValueError] "Only known path allowed". *)
Theorem URLFetcher_known_paths_only
    (urlparse : string → result ParseResult) (getcwd : string)
    (valid_paths : list string) (url : string) (parsed : ParseResult) :
  urlparse url = Ok parsed →
  scheme parsed = "" ∨ scheme parsed = "file" →
  path parsed ≠ "" →
  isabs getcwd = true →
  lexically_normal (abspath getcwd (path parsed))
  ∧ (URLFetcher_call urlparse getcwd valid_paths url = default_url_fetcher url
     ↔ abspath getcwd (path parsed) ∈ valid_paths)
  ∧ (abspath getcwd (path parsed) ∉ valid_paths →
     URLFetcher_call urlparse getcwd valid_paths url =
       Raises (ValueError "Only known path allowed")).
Proof.
  intros Hparse Hscheme Hpath Hcwd.
  split; [by apply abspath_normal|].
  rewrite (URLFetcher_call_local _ _ _ _ _ Hparse Hscheme Hpath).
  case_bool_decide as Hin.
  - split; [done | by intros []].
  - split; [|done]. split; [discriminate | by intros []%Hin].
Qed.

Lemma URLFetcher_known_paths_only_witness :
  lexically_normal (abspath "/srv" "/tmp/tmpab12cd34/sub/../a.png")
  ∧ (URLFetcher_call urlparse_model "/srv" ["/tmp/tmpab12cd34/a.png"]
       "file:///tmp/tmpab12cd34/sub/../a.png"
     = default_url_fetcher "file:///tmp/tmpab12cd34/sub/../a.png"
     ↔ abspath "/srv" "/tmp/tmpab12cd34/sub/../a.png" ∈ ["/tmp/tmpab12cd34/a.png"])
  ∧ (abspath "/srv" "/tmp/tmpab12cd34/sub/../a.png" ∉ ["/tmp/tmpab12cd34/a.png"] →
     URLFetcher_call urlparse_model "/srv" ["/tmp/tmpab12cd34/a.png"]
       "file:///tmp/tmpab12cd34/sub/../a.png"
     = Raises (ValueError "Only known path allowed")).
Proof.
  apply (URLFetcher_known_paths_only urlparse_model "/srv" ["/tmp/tmpab12cd34/a.png"]
           "file:///tmp/tmpab12cd34/sub/../a.png"
           (mkParseResult "file" "" "/tmp/tmpab12cd34/sub/../a.png" "" "" "")).
  - vm_compute. reflexivity.
  - right. reflexivity.
  - discriminate.
  - reflexivity.
Defined.

(** C1 as stated fails: with a symbolic link [/srv/current] that leads to
    [/srv/releases/v2], the URL below is passed on to the default fetcher,
    because the text of its path normalises to the valid path; the fully
    resolved path is [/srv/tmp/tmpab12cd34/a.png], which is no valid
    path. *)
Lemma URLFetcher_symlink_counterexample :
  let links := [(["srv"; "current"], ["srv"; "releases"; "v2"])] in
  let valid_paths := ["/tmp/tmpab12cd34/a.png"] in
  let url := "file:///srv/current/../../tmp/tmpab12cd34/a.png" in
  urlparse_model url
    = Ok (mkParseResult "file" "" "/srv/current/../../tmp/tmpab12cd34/a.png" "" "" "")
  ∧ URLFetcher_call urlparse_model "/srv" valid_paths url = default_url_fetcher url
  ∧ realpath links "/srv/current/../../tmp/tmpab12cd34/a.png"
    = "/srv/tmp/tmpab12cd34/a.png"
  ∧ realpath links "/srv/current/../../tmp/tmpab12cd34/a.png" ∉ valid_paths.
Proof.
  cbv zeta. split; [vm_compute; reflexivity|].
  split; [vm_compute; reflexivity|].
  assert (realpath [(["srv"; "current"], ["srv"; "releases"; "v2"])]
            "/srv/current/../../tmp/tmpab12cd34/a.png"
          = "/srv/tmp/tmpab12cd34/a.png") as -> by (vm_compute; reflexivity).
  split; [done|]. apply not_elem_of_cons; split; [done|apply not_elem_of_nil].
Qed.

(** C2: the dispatch on the scheme covers every URL.  A URL that
    [urlparse] rejects makes the call raise; for a URL that parses, the
    scheme [data] passes the URL on to the default fetcher and any scheme
    other than [data], the empty one and [file] raises "External resources
    are not allowed", both whatever the valid paths are; and every call ends
    in one of three ways. *)
Theorem URLFetcher_scheme_dispatch
    (urlparse : string → result ParseResult) (getcwd : string) (url : string) :
  (∀ e, urlparse url = Raise e →
     ∀ valid_paths, URLFetcher_call urlparse getcwd valid_paths url = Raises e)
  ∧ ∀ parsed, urlparse url = Ok parsed →
      (scheme parsed = "data" →
       ∀ valid_paths,
         URLFetcher_call urlparse getcwd valid_paths url = default_url_fetcher url)
      ∧ (scheme parsed ≠ "data" → scheme parsed ≠ "" → scheme parsed ≠ "file" →
         ∀ valid_paths,
           URLFetcher_call urlparse getcwd valid_paths url
           = Raises (ValueError "External resources are not allowed"))
      ∧ (∀ valid_paths,
           URLFetcher_call urlparse getcwd valid_paths url = default_url_fetcher url
           ∨ URLFetcher_call urlparse getcwd valid_paths url
             = Raises (ValueError "Only known path allowed")
           ∨ URLFetcher_call urlparse getcwd valid_paths url
             = Raises (ValueError "External resources are not allowed")).
Proof.
  split.
  { intros e Hparse valid_paths. unfold URLFetcher_call. by rewrite Hparse. }
  intros parsed Hparse. split; [|split].
  - intros Hd valid_paths. by eapply URLFetcher_call_data.
  - intros H1 H2 H3 valid_paths. by eapply URLFetcher_call_other.
  - intros valid_paths. unfold URLFetcher_call. rewrite Hparse.
    destruct (String.eqb (scheme parsed) "data"); [by left|].
    destruct (_ && _); [|by right; right].
    case_bool_decide; [by left | by right; left].
Qed.

Lemma URLFetcher_scheme_dispatch_witness :
  (∀ valid_paths,
     URLFetcher_call urlparse_model "/srv" valid_paths "data:text/plain;base64,SGk="
     = default_url_fetcher "data:text/plain;base64,SGk=")
  ∧ (∀ valid_paths,
       URLFetcher_call urlparse_model "/srv" valid_paths "http://example.com/x.png"
       = Raises (ValueError "External resources are not allowed"))
  ∧ (∀ valid_paths,
       URLFetcher_call urlparse_model "/srv" valid_paths "http://[::1/x.png"
       = Raises (ValueError "Invalid IPv6 URL")).
Proof.
  split; [|split].
  - apply (URLFetcher_scheme_dispatch urlparse_model "/srv"
             "data:text/plain;base64,SGk=")
      with (parsed := mkParseResult "data" "" "text/plain;base64,SGk=" "" "" "");
      [vm_compute; reflexivity | reflexivity].
  - apply (URLFetcher_scheme_dispatch urlparse_model "/srv"
             "http://example.com/x.png")
      with (parsed := mkParseResult "http" "example.com" "/x.png" "" "" "");
      [vm_compute; reflexivity | discriminate..].
  - apply (URLFetcher_scheme_dispatch urlparse_model "/srv" "http://[::1/x.png").
    vm_compute; reflexivity.
Defined.

(** ** The monad *)

Lemma bind_run {A B} (m : M A) (f : A → M B) os :
  (m ≫= f) os =
    match outcome (m os) with
    | Raise e => mkRun (Raise e) (final (m os)) (emitted (m os))
    | Ok a =>
        mkRun (outcome (f a (final (m os)))) (final (f a (final (m os))))
          (emitted (m os) ++ emitted (f a (final (m os))))
    end.
Proof. reflexivity. Qed.

Lemma stable_refl os : stable os os.
Proof. by split. Qed.

Lemma stable_trans os1 os2 os3 : stable os1 os2 → stable os2 os3 → stable os1 os3.
Proof. intros [Hc1 Hd1] [Hc2 Hd2]. split; [congruence | auto]. Qed.

Lemma stable_set_tmp_names l os : stable os (set_tmp_names l os).
Proof. by split. Qed.

Lemma preserves_ret {A} (a : A) : preserves (mret a : M A).
Proof. intros os. apply stable_refl. Qed.

Lemma preserves_raise {A} e : preserves (raise e : M A).
Proof. intros os. apply stable_refl. Qed.

Lemma preserves_emit ev : preserves (emit ev).
Proof. intros os. apply stable_refl. Qed.

Lemma preserves_lift {A} (f : OS → result A) : preserves (lift f).
Proof. intros os. apply stable_refl. Qed.

Lemma preserves_bind {A B} (m : M A) (f : A → M B) :
  preserves m → (∀ a, preserves (f a)) → preserves (m ≫= f).
Proof.
  intros Hm Hf os. rewrite bind_run. destruct (outcome (m os)); simpl; [|apply Hm].
  eapply stable_trans; [apply Hm | apply Hf].
Qed.

Lemma preserves_try_except {A B} (m : M A) (h : exn → M B) (k : A → M B) :
  preserves m → (∀ e, preserves (h e)) → (∀ a, preserves (k a)) →
  preserves (try_except m h k).
Proof.
  intros Hm Hh Hk os. unfold try_except. simpl.
  destruct (outcome (m os)); (eapply stable_trans; [apply Hm|]); [apply Hk | apply Hh].
Qed.

Lemma emits_ret {A} P (a : A) : emits P (mret a : M A).
Proof. intros os. constructor. Qed.

Lemma emits_raise {A} P e : emits P (raise e : M A).
Proof. intros os. constructor. Qed.

Lemma emits_emit (P : Event → Prop) ev : P ev → emits P (emit ev).
Proof. intros H os. by repeat constructor. Qed.

Lemma emits_lift {A} P (f : OS → result A) : emits P (lift f).
Proof. intros os. constructor. Qed.

Lemma emits_bind {A B} P (m : M A) (f : A → M B) :
  emits P m → (∀ a, emits P (f a)) → emits P (m ≫= f).
Proof.
  intros Hm Hf os. rewrite bind_run. destruct (outcome (m os)); simpl; [|apply Hm].
  apply Forall_app; split; [apply Hm | apply Hf].
Qed.

Lemma emits_try_except {A B} P (m : M A) (h : exn → M B) (k : A → M B) :
  emits P m → (∀ e, emits P (h e)) → (∀ a, emits P (k a)) →
  emits P (try_except m h k).
Proof.
  intros Hm Hh Hk os. unfold try_except. simpl.
  apply Forall_app; split; [apply Hm|].
  destruct (outcome (m os)); [apply Hk | apply Hh].
Qed.

Lemma raises_only_bind {A B} P (m : M A) (f : A → M B) :
  raises_only P m → (∀ a, raises_only P (f a)) → raises_only P (m ≫= f).
Proof.
  intros Hm Hf os e. rewrite bind_run.
  destruct (outcome (m os)) eqn:Ho; simpl; [apply Hf|].
  intros [= <-]. by eapply Hm.
Qed.

(** ** The file tree *)

Lemma walk_app f cur a b :
  walk f cur (a ++ b) =
    match walk f cur a with
    | Ok k => walk f k b
    | Raise e => Raise e
    end.
Proof.
  revert cur. induction a as [|c a IH]; intros cur; simpl; [done|].
  destruct (_ || _); [apply IH|].
  destruct (String.eqb c ".."); [apply IH|].
  destruct (f !! (cur ++ [c])) as [[]|]; auto.
Qed.

Lemma walk_stable f f' cur comps k :
  (∀ k, f !! k = Some Dir → f' !! k = Some Dir) →
  walk f cur comps = Ok k → walk f' cur comps = Ok k.
Proof.
  intros Hd. revert cur. induction comps as [|c comps IH]; intros cur; simpl; [done|].
  destruct (_ || _); [apply IH|].
  destruct (String.eqb c ".."); [apply IH|].
  destruct (f !! (cur ++ [c])) as [[]|] eqn:Hn; try done.
  rewrite (Hd _ Hn). apply IH.
Qed.

Lemma walk_raises f cur comps e : walk f cur comps = Raise e → is_Exc e.
Proof.
  revert cur. induction comps as [|c comps IH]; intros cur; simpl; [done|].
  destruct (_ || _); [apply IH|].
  destruct (String.eqb c ".."); [apply IH|].
  destruct (f !! (cur ++ [c])) as [[]|]; try apply IH; by intros [= <-].
Qed.

(** Without [..] a lookup stays below the directory it starts in. *)
Lemma walk_below f cur comps k :
  Forall (λ c, c ≠ "..") comps → walk f cur comps = Ok k → cur `prefix_of` k.
Proof.
  intros Hc. revert cur. induction Hc as [|c comps Hc _ IH]; intros cur; simpl.
  - by intros [= <-].
  - destruct (_ || _); [apply IH|].
    apply eqb_false in Hc. rewrite Hc.
    destruct (f !! (cur ++ [c])) as [[]|]; try done.
    intros Hw%IH. etrans; [|done]. by apply prefix_app_r.
Qed.

Lemma stable_insert_file os k content :
  fs os !! k ≠ Some Dir → stable os (set_fs (<[k := File content]> (fs os)) os).
Proof.
  intros Hk. split; [done|]. intros k' Hd. simpl.
  rewrite lookup_insert_ne; [done|]. intros ->. by rewrite Hd in Hk.
Qed.

Lemma preserves_open_wb p : preserves (open_wb p).
Proof.
  intros os. unfold open_wb.
  destruct (resolve_parent os p) as [[dk c]|]; [|apply stable_refl].
  destruct (names_directory c); [apply stable_refl|].
  destruct (fs os !! (dk ++ [c])) as [[]|] eqn:Hn; simpl;
    try apply stable_refl; apply stable_insert_file; by rewrite Hn.
Qed.

Lemma preserves_file_write k chunk : preserves (file_write k chunk).
Proof.
  intros os. unfold file_write.
  destruct (fs os !! k) as [[]|] eqn:Hn; simpl; try apply stable_refl.
  apply stable_insert_file. by rewrite Hn.
Qed.

Lemma preserves_write_chunks k chunks : preserves (write_chunks k chunks).
Proof.
  induction chunks as [|chunk chunks IH]; simpl; [apply preserves_ret|].
  destruct chunk; [apply preserves_ret|].
  apply preserves_bind; [apply preserves_file_write | done].
Qed.

Lemma emits_open_wb P p : emits P (open_wb p).
Proof.
  intros os. unfold open_wb.
  destruct (resolve_parent os p) as [[dk c]|]; [|constructor].
  destruct (names_directory c); [constructor|].
  destruct (fs os !! (dk ++ [c])) as [[]|]; constructor.
Qed.

Lemma emits_file_write P k chunk : emits P (file_write k chunk).
Proof.
  intros os. unfold file_write. destruct (fs os !! k) as [[]|]; constructor.
Qed.

Lemma emits_write_chunks P k chunks : emits P (write_chunks k chunks).
Proof.
  induction chunks as [|chunk chunks IH]; simpl; [apply emits_ret|].
  destruct chunk; [apply emits_ret|].
  apply emits_bind; [apply emits_file_write | done].
Qed.

Lemma resolve_parent_raises os p e : resolve_parent os p = Raise e → is_Exc e.
Proof.
  unfold resolve_parent. destruct (String.eqb p ""); [by intros [= <-]|].
  destruct (walk _ _ _) eqn:Hw; [done|]. intros [= <-]. by eapply walk_raises.
Qed.

Lemma raises_open_wb p : raises_only is_Exc (open_wb p).
Proof.
  intros os e. unfold open_wb.
  destruct (resolve_parent os p) as [[dk c]|] eqn:Hr.
  - destruct (names_directory c); [by intros [= <-]|].
    destruct (fs os !! (dk ++ [c])) as [[]|]; simpl; try done. by intros [= <-].
  - simpl. intros [= <-]. by eapply resolve_parent_raises.
Qed.

Lemma raises_file_write k chunk : raises_only is_Exc (file_write k chunk).
Proof.
  intros os e. unfold file_write.
  destruct (fs os !! k) as [[]|]; simpl; try done; by intros [= <-].
Qed.

Lemma raises_write_chunks k chunks : raises_only is_Exc (write_chunks k chunks).
Proof.
  induction chunks as [|chunk chunks IH]; simpl; [done|].
  destruct chunk; [done|].
  apply raises_only_bind; [apply raises_file_write | done].
Qed.

(** ** Paths made by [os.path.join] *)

Lemma split_slash_app_slash a b :
  split_slash (a +:+ "/" +:+ b) = split_slash a ++ split_slash b.
Proof.
  induction a as [|c a IH].
  - reflexivity.
  - rewrite app_cons. simpl. rewrite IH.
    destruct (Ascii.eqb c slash); [done|].
    pose proof (split_slash_nonempty a). by destruct (split_slash a).
Qed.

Lemma endswith_slash_inv a : endswith_slash a = true → ∃ a0, a = a0 +:+ "/".
Proof.
  induction a as [|c a IH]; simpl; [done|].
  destruct a as [|c' a].
  - intros Hc%Ascii.eqb_eq. subst c. by exists "".
  - intros [a0 Ha0]%IH. exists (String c a0). by rewrite app_cons, <- Ha0.
Qed.

Lemma split_slash_app_slash_end a : split_slash (a +:+ "/") = split_slash a ++ [""].
Proof. apply (split_slash_app_slash a ""). Qed.

Lemma walk_noop_end f cur comps : walk f cur (comps ++ [""]) = walk f cur comps.
Proof. rewrite walk_app. by destruct (walk f cur comps). Qed.

Lemma isabs_app d b : d ≠ "" → isabs (d +:+ b) = isabs d.
Proof. destruct d as [|c d]; [done|]. intros _. by rewrite app_cons. Qed.

(** The components of a joined path: those of the directory, up to a
    trailing slash, then those of the relative path. *)
Lemma os_path_join_split d b :
  d ≠ "" → startswith b "/" = false →
  isabs (os_path_join d b) = isabs d
  ∧ ∃ X, split_slash (os_path_join d b) = X ++ split_slash b
         ∧ ∀ f cur, walk f cur X = walk f cur (split_slash d).
Proof.
  intros Hd Hb. unfold os_path_join. rewrite Hb.
  apply eqb_false in Hd as Hd'. rewrite Hd'. simpl.
  destruct (endswith_slash d) eqn:He.
  - split; [by apply isabs_app|].
    apply endswith_slash_inv in He as [d0 ->].
    exists (split_slash d0). split.
    + rewrite <- split_slash_app_slash. f_equal.
      clear. induction d0 as [|c d0 IH]; [done|]. by rewrite !app_cons, IH.
    + intros f cur. by rewrite split_slash_app_slash_end, walk_noop_end.
  - split; [by apply isabs_app|].
    exists (split_slash d). split; [apply split_slash_app_slash | done].
Qed.

Lemma removelast_app_nonempty {A} (l1 l2 : list A) :
  l2 ≠ [] → removelast (l1 ++ l2) = l1 ++ removelast l2.
Proof. intros. by apply removelast_app. Qed.

Lemma last_app_nonempty {A} (l1 l2 : list A) d :
  l2 ≠ [] → List.last (l1 ++ l2) d = List.last l2 d.
Proof.
  intros Hl. induction l1 as [|x l1 IH]; [done|].
  simpl. rewrite IH. destruct (l1 ++ l2) eqn:E; [|done].
  by apply app_eq_nil in E as [_ ?].
Qed.

(** ** [os.stat] *)

Lemma stat_dir_walk os d k :
  stat os d = Ok (k, Dir) →
  d ≠ "" ∧ walk (fs os) (start_of os d) (split_slash d) = Ok k.
Proof.
  unfold stat, resolve_parent.
  destruct (String.eqb d "") eqn:Hd; [done|]. apply eqb_false in Hd.
  intros H. split; [done|].
  rewrite (app_removelast_last "" (split_slash_nonempty d)).
  rewrite walk_app.
  destruct (walk (fs os) (start_of os d) (removelast (split_slash d))) as [dk|];
    [|done].
  simpl. set (c := List.last (split_slash d) "") in *.
  destruct (String.eqb c "" || String.eqb c "."); [by inversion H|].
  destruct (String.eqb c ".."); [by inversion H|].
  destruct (fs os !! (dk ++ [c])) as [[]|]; by inversion H.
Qed.

Lemma stat_stable os os' d k :
  stable os os' → stat os d = Ok (k, Dir) → stat os' d = Ok (k, Dir).
Proof.
  intros [Hc Hs]. unfold stat, resolve_parent, start_of. rewrite Hc.
  destruct (String.eqb d ""); [done|].
  destruct (walk (fs os) _ _) as [dk|] eqn:Hw; [|done].
  rewrite (walk_stable _ _ _ _ _ Hs Hw).
  destruct (_ || _); [done|]. destruct (String.eqb _ ".."); [done|].
  destruct (fs os !! _) as [[]|] eqn:Hn; try done.
  intros [= <-]. by rewrite (Hs _ Hn).
Qed.

(** ** [save_part_to_file] *)

Lemma set_fs_same os : set_fs (fs os) os = os.
Proof. by destruct os. Qed.

Lemma set_fs_set_fs f g os : set_fs f (set_fs g os) = set_fs f os.
Proof. done. Qed.

Lemma write_chunks_run k chunks content os :
  fs os !! k = Some (File content) →
  write_chunks k chunks os =
    mkRun (Ok tt) (set_fs (<[k := File (content ++ written chunks)]> (fs os)) os) [].
Proof.
  revert content os. induction chunks as [|chunk chunks IH]; intros content os Hk.
  - simpl. rewrite app_nil_r, insert_id, set_fs_same by done. reflexivity.
  - destruct chunk as [|b chunk].
    + simpl. rewrite app_nil_r, insert_id, set_fs_same by done. reflexivity.
    + change (write_chunks k ((b :: chunk) :: chunks))
        with (file_write k (b :: chunk) ≫= λ _, write_chunks k chunks).
      rewrite bind_run. unfold file_write. rewrite Hk.
      cbv beta iota delta [outcome final emitted].
      rewrite (IH (content ++ b :: chunk)) by apply lookup_insert_eq.
      cbv beta iota delta [outcome final emitted].
      simpl fs. rewrite insert_insert_eq, set_fs_set_fs.
      simpl written. by rewrite <- app_assoc.
Qed.

(** The run of [open(filepath, 'wb')] when it succeeds. *)
Lemma open_wb_ok p os k :
  outcome (open_wb p os) = Ok k →
  ∃ dk c, resolve_parent os p = Ok (dk, c) ∧ k = dk ++ [c]
          ∧ names_directory c = false ∧ fs os !! k ≠ Some Dir
          ∧ open_wb p os = mkRun (Ok k) (set_fs (<[k := File []]> (fs os)) os) [].
Proof.
  unfold open_wb. destruct (resolve_parent os p) as [[dk c]|]; [|done].
  destruct (names_directory c) eqn:Hn; [done|].
  destruct (fs os !! (dk ++ [c])) as [[]|] eqn:Hl; simpl; try done.
  all: intros [= <-]; exists dk, c; rewrite Hl; done.
Qed.

Lemma stat_after_write p os dk c content :
  resolve_parent os p = Ok (dk, c) → names_directory c = false →
  fs os !! (dk ++ [c]) ≠ Some Dir →
  stat (set_fs (<[dk ++ [c] := File content]> (fs os)) os) p
  = Ok (dk ++ [c], File content).
Proof.
  intros Hr Hn Hd. unfold stat.
  assert (resolve_parent (set_fs (<[dk ++ [c] := File content]> (fs os)) os) p
          = Ok (dk, c)) as ->.
  { revert Hr. unfold resolve_parent, start_of. simpl.
    destruct (String.eqb p ""); [done|].
    destruct (walk (fs os) _ _) as [dk'|] eqn:Hw; [|done]. intros [= -> <-].
    erewrite walk_stable; [done| |done].
    apply (stable_insert_file os _ content Hd). }
  unfold names_directory in Hn.
  apply orb_false_iff in Hn as [[H1 H2]%orb_false_iff H3].
  rewrite H1, H2, H3. simpl. by rewrite lookup_insert_eq.
Qed.

Lemma save_part_to_file_ok part directory os out :
  outcome (save_part_to_file part directory os) = Ok out →
  ∃ filename dk c,
    part_filename part = Some filename
    ∧ out = os_path_join directory filename
    ∧ resolve_parent os out = Ok (dk, c)
    ∧ names_directory c = false
    ∧ fs os !! (dk ++ [c]) ≠ Some Dir
    ∧ final (save_part_to_file part directory os)
      = set_fs (<[dk ++ [c] := File (written (part_chunks part))]> (fs os)) os.
Proof.
  unfold save_part_to_file.
  destruct (part_filename part) as [filename|]; [|done].
  rewrite bind_run. simpl outcome. cbv iota. simpl final. simpl emitted.
  rewrite bind_run.
  destruct (outcome (open_wb (os_path_join directory filename) os)) as [k|] eqn:Ho;
    [|done].
  apply open_wb_ok in Ho as (dk & c & Hr & -> & Hn & Hd & ->).
  simpl outcome. simpl final. simpl emitted.
  rewrite bind_run, (write_chunks_run _ _ []) by apply lookup_insert_eq.
  simpl. rewrite insert_insert_eq, !set_fs_set_fs.
  rewrite (stat_after_write _ _ _ _ _ Hr Hn Hd). simpl.
  intros [= <-]. by exists filename, dk, c.
Qed.

(** C10, as the code has it: the destination is
    [os.path.join(directory, filename)] with the declared file name of the
    part, whatever its field name; when the declared name is relative and
    has no [..] component, a part that is saved is one file strictly below
    the directory, and nothing else changes. *)
Theorem save_part_to_file_destination
    (part : Part) (directory : string) (os : OS)
    (filename : string) (k : key) (out : string) :
  part_filename part = Some filename →
  stat os directory = Ok (k, Dir) →
  startswith filename "/" = false →
  Forall (λ c, c ≠ "..") (split_slash filename) →
  outcome (save_part_to_file part directory os) = Ok out →
  out = os_path_join directory filename
  ∧ ∃ k', k `prefix_of` k' ∧ k' ≠ k
          ∧ final (save_part_to_file part directory os)
            = set_fs (<[k' := File (written (part_chunks part))]> (fs os)) os.
Proof.
  intros Hf Hdir Hrel Hdots Hout.
  apply save_part_to_file_ok in Hout as (f' & dk & c & Hf' & -> & Hr & _ & _ & Hfin).
  rewrite Hf in Hf'. injection Hf' as <-. split; [done|].
  exists (dk ++ [c]). apply stat_dir_walk in Hdir as [Hne Hwalk].
  destruct (os_path_join_split directory filename Hne Hrel) as (Habs & X & Hsplit & HX).
  assert (k `prefix_of` dk) as Hpre.
  { revert Hr. unfold resolve_parent, start_of. rewrite Habs, Hsplit.
    destruct (String.eqb _ ""); [done|].
    rewrite removelast_app_nonempty by apply split_slash_nonempty.
    rewrite walk_app, HX. fold (start_of os directory). rewrite Hwalk.
    destruct (walk (fs os) k _) as [dk'|] eqn:Hw; [|done]. intros [= -> _].
    eapply walk_below; [|done]. by apply Forall_removelast. }
  split; [|split; [|done]].
  - etrans; [done|]. by apply prefix_app_r.
  - intros Heq. apply prefix_length in Hpre. rewrite <- Heq in Hpre.
    rewrite length_app in Hpre. simpl in Hpre. lia.
Qed.

(** ** Creating and removing the workspace *)

Lemma strip_trailing_empty_spec l :
  ∃ n, l = strip_trailing_empty l ++ replicate n "".
Proof.
  induction l as [|c l [n IH]]; [by exists 0%nat|]. simpl.
  destruct (strip_trailing_empty l) as [|c' l'] eqn:Hs.
  - destruct (String.eqb c "") eqn:Hc.
    + apply eqb_true in Hc as ->. exists (S n). simpl. by f_equal.
    + exists n. simpl. by f_equal.
  - exists n. simpl. by f_equal.
Qed.

Lemma walk_noops f cur n : walk f cur (replicate n "") = Ok cur.
Proof. induction n; simpl; done. Qed.

Lemma walk_stat os d k :
  d ≠ "" → walk (fs os) (start_of os d) (split_slash d) = Ok k →
  stat os d = Ok (k, Dir).
Proof.
  intros Hd%eqb_false. unfold stat, resolve_parent. rewrite Hd.
  rewrite (app_removelast_last "" (split_slash_nonempty d)) at 1.
  rewrite walk_app.
  destruct (walk (fs os) (start_of os d) (removelast (split_slash d))) as [dk|];
    [|done].
  simpl. set (c := List.last (split_slash d) "").
  destruct (String.eqb c "" || String.eqb c "."); [by intros [= <-]|].
  destruct (String.eqb c ".."); [by intros [= <-]|].
  destruct (fs os !! (dk ++ [c])) as [[]|]; try done. by intros [= <-].
Qed.

Lemma os_mkdir_ok p os k :
  outcome (os_mkdir p os) = Ok k →
  stat (final (os_mkdir p os)) p = Ok (k, Dir)
  ∧ fs os !! k = None
  ∧ final (os_mkdir p os) = set_fs (<[k := Dir]> (fs os)) os.
Proof.
  unfold os_mkdir.
  destruct (String.eqb p "") eqn:Hp; [done|]. apply eqb_false in Hp.
  destruct (strip_trailing_empty_spec (split_slash p)) as [n Hn].
  set (s := strip_trailing_empty (split_slash p)) in *.
  destruct (walk (fs os) (start_of os p) (removelast s)) as [dk|] eqn:Hw; [|done].
  destruct (names_directory (List.last s "")) eqn:Hc; [done|].
  destruct (fs os !! (dk ++ [List.last s ""])) eqn:Hl; [done|].
  simpl. intros [= <-]. split; [|done].
  apply walk_stat; [done|]. simpl.
  assert (s ≠ []) as Hs by (intros Hs; by rewrite Hs in Hc).
  pose proof (app_removelast_last "" Hs) as Hsplit.
  set (c := List.last s "") in *. set (s0 := removelast s) in *.
  clearbody c s0. clearbody s. subst s.
  rewrite Hn, <- app_assoc, !walk_app.
  unfold start_of in *. simpl.
  erewrite walk_stable; [| |exact Hw].
  2: { intros k' Hk'. rewrite lookup_insert_ne; [done|]. intros <-. congruence. }
  simpl. unfold names_directory in Hc.
  apply orb_false_iff in Hc as [[H1 H2]%orb_false_iff H3].
  rewrite H1, H2, H3. simpl. rewrite lookup_insert_eq. apply walk_noops.
Qed.

Lemma emits_os_mkdir P p : emits P (os_mkdir p).
Proof.
  intros os. unfold os_mkdir. destruct (String.eqb p ""); [constructor|].
  destruct (walk _ _ _); [|constructor].
  destruct (names_directory _); [constructor|].
  destruct (fs os !! _); constructor.
Qed.

Lemma emits_mkdtemp_from P dir names : emits P (mkdtemp_from dir names).
Proof.
  induction names as [|name names IH]; simpl; [apply emits_raise|].
  apply emits_bind; [intros os; constructor|]. intros _.
  apply emits_try_except; [apply emits_os_mkdir | | intros; apply emits_ret].
  intros e. destruct (is_class _ e); [done | apply emits_raise].
Qed.

Lemma emits_mkdtemp P : emits P mkdtemp.
Proof. intros os. apply emits_mkdtemp_from. Qed.

Lemma mkdtemp_from_ok dir names os d k :
  outcome (mkdtemp_from dir names os) = Ok (d, k) →
  stat (final (mkdtemp_from dir names os)) d = Ok (k, Dir).
Proof.
  revert os. induction names as [|name names IH]; intros os; [done|].
  cbn [mkdtemp_from]. rewrite bind_run. cbn [outcome final emitted].
  unfold try_except. cbn [outcome final emitted].
  destruct (outcome (os_mkdir _ _)) as [k'|e] eqn:Ho.
  - cbn. intros [= <- <-]. by apply os_mkdir_ok in Ho as [? _].
  - destruct (is_class _ e); [apply IH | done].
Qed.

Lemma mkdtemp_ok os d k :
  outcome (mkdtemp os) = Ok (d, k) → stat (final (mkdtemp os)) d = Ok (k, Dir).
Proof. apply mkdtemp_from_ok. Qed.

Lemma cleanup_run os d k :
  stat os d = Ok (k, Dir) →
  cleanup d os
  = mkRun (Ok tt) (set_fs (filter (λ kv, ¬ k `prefix_of` kv.1) (fs os)) os) [].
Proof. intros Hs. unfold cleanup, try_except, shutil_rmtree. by rewrite Hs. Qed.

Lemma emits_cleanup P d : emits P (cleanup d).
Proof.
  apply emits_try_except; [| |intros; apply emits_ret].
  - intros os. unfold shutil_rmtree. destruct (stat os d) as [[? []]|]; constructor.
  - intros e. destruct (is_class _ e); [apply emits_ret | apply emits_raise].
Qed.

(** The [with] statement: whatever the body does, short of removing a
    directory, the temporary directory is gone at the end, and the outcome
    is that of the body. *)
Lemma with_TemporaryDirectory_run {A} (body : string → M A) os :
  (∀ d, preserves (body d)) →
  let r := with_TemporaryDirectory body os in
  match outcome (mkdtemp os) with
  | Raise e => r = mkRun (Raise e) (final (mkdtemp os)) (emitted (mkdtemp os))
  | Ok (d, k) =>
      let b := body d (final (mkdtemp os)) in
      r = mkRun (outcome b)
            (set_fs (filter (λ kv, ¬ k `prefix_of` kv.1) (fs (final b))) (final b))
            (emitted (mkdtemp os) ++ TemporaryDirectory d k :: emitted b)
  end.
Proof.
  intros Hb. unfold with_TemporaryDirectory. cbv zeta. rewrite bind_run.
  destruct (outcome (mkdtemp os)) as [[d k]|e] eqn:Ho; [|done].
  rewrite bind_run. unfold emit, try_finally. cbn [outcome final emitted fst snd].
  rewrite (cleanup_run _ _ k).
  - cbn [outcome final emitted]. by rewrite app_nil_r.
  - eapply stat_stable; [apply Hb|]. by apply mkdtemp_ok.
Qed.

(** ** The parts of the handler *)

Lemma emits_weaken {A} (P Q : Event → Prop) (m : M A) :
  (∀ ev, P ev → Q ev) → emits P m → emits Q m.
Proof. intros HPQ Hm os. eapply Forall_impl; [apply Hm | done]. Qed.

Lemma emits_nothing {A} (m : M A) os : emits (λ _, False) m → emitted (m os) = [].
Proof. intros Hm. specialize (Hm os). destruct (emitted (m os)); [done|]. by inversion Hm. Qed.

Lemma mkdtemp_emitted os : emitted (mkdtemp os) = [].
Proof. apply emits_nothing, emits_mkdtemp. Qed.

Lemma preserves_save_part_to_file part directory :
  preserves (save_part_to_file part directory).
Proof.
  unfold save_part_to_file.
  apply preserves_bind.
  { destruct (part_filename part); [apply preserves_ret | apply preserves_raise]. }
  intros filepath. apply preserves_bind; [apply preserves_open_wb|]. intros k.
  apply preserves_bind; [apply preserves_write_chunks|]. intros _.
  apply preserves_bind; [apply preserves_lift|]. intros found.
  apply preserves_bind.
  { destruct found; [apply preserves_ret | apply preserves_emit]. }
  intros _. apply preserves_bind; [apply preserves_emit|]. intros _. apply preserves_ret.
Qed.

Lemma emits_save_part_to_file part directory :
  emits is_log (save_part_to_file part directory).
Proof.
  unfold save_part_to_file.
  apply emits_bind.
  { destruct (part_filename part); [apply emits_ret | apply emits_raise]. }
  intros filepath. apply emits_bind; [apply emits_open_wb|]. intros k.
  apply emits_bind; [apply emits_write_chunks|]. intros _.
  apply emits_bind; [apply emits_lift|]. intros found.
  apply emits_bind.
  { destruct found; [apply emits_ret | by apply emits_emit]. }
  intros _. apply emits_bind; [by apply emits_emit|]. intros _. apply emits_ret.
Qed.

Lemma raises_save_part_to_file part directory :
  raises_only is_Exc (save_part_to_file part directory).
Proof.
  unfold save_part_to_file.
  apply raises_only_bind.
  { destruct (part_filename part); intros os e; [done | by intros [= <-]]. }
  intros filepath. apply raises_only_bind; [apply raises_open_wb|]. intros k.
  apply raises_only_bind; [apply raises_write_chunks|]. intros _.
  apply raises_only_bind; [done|]. intros found.
  apply raises_only_bind; [by destruct found|]. intros _.
  apply raises_only_bind; done.
Qed.

Lemma preserves_read_parts reader temp_dir form_data :
  preserves (read_parts reader temp_dir form_data).
Proof.
  revert form_data. induction reader as [|[part|e] reader IH]; intros form_data.
  - apply preserves_ret.
  - cbn [read_parts]. apply preserves_bind; [apply preserves_emit|]. intros _.
    destruct (part_name part) as [name|]; [|apply preserves_raise].
    destruct (accepted name); [|apply IH].
    apply preserves_bind; [apply preserves_save_part_to_file|]. intros ?. apply IH.
  - apply preserves_raise.
Qed.

Lemma emits_read_parts reader temp_dir form_data :
  emits is_log (read_parts reader temp_dir form_data).
Proof.
  revert form_data. induction reader as [|[part|e] reader IH]; intros form_data.
  - apply emits_ret.
  - cbn [read_parts]. apply emits_bind; [by apply emits_emit|]. intros _.
    destruct (part_name part) as [name|]; [|apply emits_raise].
    destruct (accepted name); [|apply IH].
    apply emits_bind; [apply emits_save_part_to_file|]. intros ?. apply IH.
  - apply emits_raise.
Qed.

(** The loop ends without an exception only when the reader yields parts
    to the end, every part has a name and every accepted part is saved; the
    dictionary then maps the names of the accepted parts to their paths. *)
Lemma read_parts_ok reader temp_dir form_data os fd :
  outcome (read_parts reader temp_dir form_data os) = Ok fd →
  ∃ parts, reader = map Ok parts
           ∧ fd = form_data_of temp_dir parts form_data
           ∧ Forall (λ p, is_accepted p = true → part_filename p ≠ None) parts.
Proof.
  revert form_data os.
  induction reader as [|[part|e] reader IH]; intros form_data os.
  - intros [= <-]. by exists [].
  - cbn [read_parts]. rewrite bind_run. cbn [outcome final emitted logger_info emit].
    destruct (part_name part) as [name|] eqn:Hname; [|done].
    destruct (accepted name) eqn:Hacc.
    + rewrite bind_run.
      destruct (outcome (save_part_to_file part temp_dir os)) as [out|] eqn:Hs; [|done].
      cbn [outcome final emitted].
      apply save_part_to_file_ok in Hs as (filename & _ & _ & Hf & -> & _).
      intros (parts & -> & -> & Hall)%IH. exists (part :: parts).
      split; [done|]. split.
      * unfold form_data_of. simpl. rewrite Hname, Hacc.
        unfold path_in. by rewrite Hf.
      * constructor; [|done]. by rewrite Hf.
    + intros (parts & -> & -> & Hall)%IH. exists (part :: parts).
      split; [done|]. split.
      * unfold form_data_of. simpl. by rewrite Hname, Hacc.
      * constructor; [|done]. unfold is_accepted. by rewrite Hname, Hacc.
  - done.
Qed.


Lemma run_eta {A} (r : Run A) : mkRun (outcome r) (final r) (emitted r) = r.
Proof. by destruct r. Qed.

Lemma bind_emit_run {B} ev (k : unit → M B) os :
  (emit ev ≫= k) os
  = mkRun (outcome (k tt os)) (final (k tt os)) (ev :: emitted (k tt os)).
Proof. reflexivity. Qed.

Lemma bind_lift_run {A B} (f : OS → result A) (k : A → M B) os :
  (lift f ≫= k) os
  = match f os with
    | Ok a => k a os
    | Raise e => mkRun (Raise e) os []
    end.
Proof.
  rewrite bind_run. unfold lift. cbn [outcome final emitted].
  destruct (f os); [apply run_eta | done].
Qed.

Section Server_facts.

Variable weasyprint : EngineCall → OS → result bytes.

Lemma render_in_split request reader temp_dir :
  render_in weasyprint request reader temp_dir
  = read_parts reader temp_dir [] ≫= after_parts weasyprint request temp_dir.
Proof. reflexivity. Qed.

Lemma preserves_engine call : preserves (engine weasyprint call).
Proof. intros os. apply stable_refl. Qed.

Lemma preserves_HTML_write_pdf h t css atts :
  preserves (HTML_write_pdf weasyprint h t css atts).
Proof.
  intros os. unfold HTML_write_pdf.
  destruct (weasyprint _ os); [|apply stable_refl]. cbn [final].
  apply (preserves_bind (open_wb t) (λ file_, file_write file_ a));
    [apply preserves_open_wb | intros; apply preserves_file_write].
Qed.

Lemma preserves_after_parts request temp_dir fd :
  preserves (after_parts weasyprint request temp_dir fd).
Proof.
  unfold after_parts.
  apply preserves_bind; [apply preserves_emit|]. intros _.
  apply preserves_bind; [apply preserves_engine|]. intros _.
  destruct (dict_get fd "html") as [h|].
  - apply preserves_bind; [apply preserves_engine|]. intros _.
    apply preserves_bind.
    { destruct (dict_get fd "css"); (apply preserves_bind;
        [apply preserves_engine | intros; apply preserves_ret]). }
    intros css. apply preserves_try_except.
    + apply preserves_HTML_write_pdf.
    + intros e. apply preserves_bind; [apply preserves_emit | intros; apply preserves_ret].
    + intros _. unfold stream_file.
      apply preserves_bind; [apply preserves_lift | intros; apply preserves_ret].
  - apply preserves_bind; [apply preserves_emit | intros; apply preserves_ret].
Qed.

Lemma preserves_render_in request reader temp_dir :
  preserves (render_in weasyprint request reader temp_dir).
Proof.
  rewrite render_in_split.
  apply preserves_bind; [apply preserves_read_parts | intros; apply preserves_after_parts].
Qed.

Lemma emits_engine (P : Event → Prop) call :
  (∀ r, P (Engine call r)) → emits P (engine weasyprint call).
Proof. intros H os. by repeat constructor. Qed.

Lemma emits_HTML_write_pdf (P : Event → Prop) h t css atts :
  (∀ r, P (Engine (write_pdf h t css atts) r)) →
  emits P (HTML_write_pdf weasyprint h t css atts).
Proof.
  intros H os. unfold HTML_write_pdf.
  destruct (weasyprint _ os); by repeat constructor.
Qed.

Lemma emits_after_parts (P : Event → Prop) request temp_dir fd :
  (∀ l m e, P (Log l m e)) → (∀ c r, P (Engine c r)) →
  emits P (after_parts weasyprint request temp_dir fd).
Proof.
  intros HL HE. unfold after_parts.
  apply emits_bind; [by apply emits_emit|]. intros _.
  apply emits_bind; [by apply emits_engine|]. intros _.
  destruct (dict_get fd "html") as [h|].
  - apply emits_bind; [by apply emits_engine|]. intros _.
    apply emits_bind.
    { destruct (dict_get fd "css"); (apply emits_bind;
        [by apply emits_engine | intros; apply emits_ret]). }
    intros css. apply emits_try_except.
    + by apply emits_HTML_write_pdf.
    + intros e. apply emits_bind; [by apply emits_emit | intros; apply emits_ret].
    + intros _. unfold stream_file.
      apply emits_bind; [apply emits_lift | intros; apply emits_ret].
  - apply emits_bind; [by apply emits_emit | intros; apply emits_ret].
Qed.

Lemma emits_render_in (P : Event → Prop) request reader temp_dir :
  (∀ l m e, P (Log l m e)) → (∀ c r, P (Engine c r)) →
  emits P (render_in weasyprint request reader temp_dir).
Proof.
  intros HL HE. rewrite render_in_split. apply emits_bind.
  - eapply emits_weaken; [|apply emits_read_parts]. intros []; by try done.
  - intros fd. by apply emits_after_parts.
Qed.

(** The run of the handler, in terms of the run of the body of its
    [with] statement. *)
Lemma render_pdf_run request os :
  let L1 := Log INFO (Msg "Received request for PDF rendering.") None in
  let L2 := Log INFO (Msg "Processing multipart data.") None in
  match multipart request with
  | Raise e => render_pdf weasyprint request os = mkRun (Raise e) os [L1]
  | Ok reader =>
      match outcome (mkdtemp os) with
      | Raise e =>
          render_pdf weasyprint request os
          = mkRun (Raise e) (final (mkdtemp os)) [L1; L2]
      | Ok (d, k) =>
          let b := render_in weasyprint request reader d (final (mkdtemp os)) in
          render_pdf weasyprint request os
          = mkRun (outcome b)
              (set_fs (filter (λ kv, ¬ k `prefix_of` kv.1) (fs (final b))) (final b))
              (L1 :: L2 :: TemporaryDirectory d k :: emitted b)
      end
  end.
Proof.
  cbv zeta. unfold render_pdf, logger_info.
  rewrite bind_emit_run, bind_lift_run.
  destruct (multipart request) as [reader|e]; [|done].
  rewrite bind_emit_run.
  pose proof (with_TemporaryDirectory_run
                (render_in weasyprint request reader) os
                (preserves_render_in request reader)) as Hw.
  cbv zeta in Hw. rewrite mkdtemp_emitted in Hw.
  destruct (outcome (mkdtemp os)) as [[d k]|e]; by rewrite Hw.
Qed.

End Server_facts.

(** C3: on every way out of the handler, the temporary directory that the
    request got and everything below it is gone from the file tree. *)
Theorem workspace_removed
    (weasyprint : EngineCall → OS → result bytes) (request : Request) (os : OS)
    (d : string) (k k' : key) :
  In (TemporaryDirectory d k) (emitted (render_pdf weasyprint request os)) →
  k `prefix_of` k' →
  fs (final (render_pdf weasyprint request os)) !! k' = None.
Proof.
  intros Hin Hpre. pose proof (render_pdf_run weasyprint request os) as Hrun.
  cbv zeta in Hrun. destruct (multipart request) as [reader|e].
  - destruct (outcome (mkdtemp os)) as [[d0 k0]|e].
    + rewrite Hrun in Hin |- *. cbn [emitted final] in *.
      destruct Hin as [|[|[Heq|Hin]]]; try done.
      * injection Heq as -> ->. simpl. apply map_lookup_filter_None. right.
        intros x _. simpl. by intros [].
      * exfalso.
        assert (emits not_workspace (render_in weasyprint request reader d0)) as He
          by (by apply emits_render_in).
        apply (proj1 (List.Forall_forall _ _) (He _) _ Hin).
    + rewrite Hrun in Hin. cbn in Hin. by destruct Hin as [|[|]].
  - rewrite Hrun in Hin. cbn in Hin. by destruct Hin as [|].
Qed.

(** ** Streaming *)

Lemma read_chunks_concat fuel size (data : bytes) :
  (0 < size)%nat → (length data < fuel)%nat →
  concat (read_chunks fuel size data) = data.
Proof.
  intros Hsize. revert data. induction fuel as [|fuel IH]; intros data Hlen; [lia|].
  cbn [read_chunks]. destruct (take size data) as [|b chunk] eqn:Ht.
  - destruct data as [|b data]; [done|]. destruct size; [lia | done].
  - cbn [concat]. rewrite <- Ht, IH, take_drop; [done|].
    rewrite length_drop. destruct data; [by rewrite take_nil in Ht|].
    simpl in *. lia.
Qed.

Lemma basename_output temp_dir : basename (os_path_join temp_dir "output.pdf") = "output.pdf".
Proof.
  unfold basename. destruct (decide (temp_dir = "")) as [->|Hne]; [done|].
  destruct (os_path_join_split temp_dir "output.pdf" Hne eq_refl) as (_ & X & -> & _).
  by rewrite last_app_nonempty.
Qed.

Section After_parts.

Variable weasyprint : EngineCall → OS → result bytes.

Lemma bind_engine_run {B} call (k : unit → M B) os :
  (engine weasyprint call ≫= k) os
  = match weasyprint call os with
    | Raise e => mkRun (Raise e) os [Engine call (Raise e)]
    | Ok b =>
        mkRun (outcome (k tt os)) (final (k tt os))
          (Engine call (Ok b) :: emitted (k tt os))
    end.
Proof.
  unfold mbind, M_bind, engine. cbn [outcome final emitted].
  by destruct (weasyprint call os).
Qed.

Lemma after_parts_no_html request temp_dir fd os :
  dict_get fd "html" = None →
  after_parts weasyprint request temp_dir fd os
  = match weasyprint FontConfiguration os with
    | Raise e =>
        mkRun (Raise e) os
          [Log INFO (Form_data_processed (dict_keys fd)) None;
           Engine FontConfiguration (Raise e)]
    | Ok b =>
        mkRun (Ok (web_Response 400 "No html file provided.")) os
          [Log INFO (Form_data_processed (dict_keys fd)) None;
           Engine FontConfiguration (Ok b);
           Log INFO (Msg "Bad request. No html file provided.") None]
    end.
Proof.
  intros Hget. unfold after_parts, logger_info.
  rewrite Hget, bind_emit_run, bind_engine_run.
  destruct (weasyprint FontConfiguration os); [|done].
  by rewrite bind_emit_run.
Qed.

Lemma file_write_run k chunk content os :
  fs os !! k = Some (File content) →
  file_write k chunk os
  = mkRun (Ok tt) (set_fs (<[k := File (content ++ chunk)]> (fs os)) os) [].
Proof. intros Hk. unfold file_write. by rewrite Hk. Qed.

Lemma HTML_write_pdf_cases h target css atts os :
  let call := write_pdf h target css atts in
  let w := HTML_write_pdf weasyprint h target css atts os in
  (∃ e, outcome w = Raise e ∧ emitted w = [Engine call (Raise e)])
  ∨ (∃ pdf k, outcome w = Ok tt ∧ emitted w = [Engine call (Ok pdf)]
              ∧ stat (final w) target = Ok (k, File pdf)).
Proof.
  cbv zeta. unfold HTML_write_pdf.
  destruct (weasyprint _ os) as [pdf|e]; [|left; by exists e].
  rewrite bind_run.
  destruct (outcome (open_wb target os)) as [k|e] eqn:Ho; [|left; by exists e].
  apply open_wb_ok in Ho as (dk & c & Hr & -> & Hn & Hd & ->).
  cbn [outcome final emitted].
  rewrite (file_write_run _ _ []) by apply lookup_insert_eq.
  cbn [outcome final emitted]. right. exists pdf, (dk ++ [c]).
  split; [done|]. split; [done|].
  simpl fs. rewrite insert_insert_eq, set_fs_set_fs.
  by apply stat_after_write.
Qed.

Lemma stream_file_run request filename content_type os k content :
  stat os filename = Ok (k, File content) →
  stream_file request filename content_type os
  = mkRun
      (Ok (web_StreamResponse 200 "OK"
             [("Content-Type", content_type);
              ("Content-Disposition",
               "attachment; filename=" +:+ dq +:+ basename filename +:+ dq)]
             (read_chunks (S (length content)) (N.to_nat CHUNK_SIZE) content)))
      os [].
Proof.
  intros Hs. unfold stream_file, open_rb. cbv zeta.
  rewrite bind_lift_run. by rewrite Hs.
Qed.

(** The call of [write_pdf] and what follows it. *)
Lemma write_pdf_and_after request temp_dir h css atts os :
  let target := os_path_join temp_dir "output.pdf" in
  let call := write_pdf h target css atts in
  let r := try_except (HTML_write_pdf weasyprint h target css atts)
             (λ e, logger_exception (Msg "PDF generation failed") e;;
                   mret (web_Response 500 "PDF generation failed."))
             (λ _, stream_file request target "application/pdf") os in
  (∃ e, outcome r = Ok (web_Response 500 "PDF generation failed.")
        ∧ emitted r = [Engine call (Raise e);
                       Log ERROR (Msg "PDF generation failed") (Some e)])
  ∨ (∃ pdf, outcome r
            = Ok (web_StreamResponse 200 "OK" pdf_headers
                    (read_chunks (S (length pdf)) (N.to_nat CHUNK_SIZE) pdf))
            ∧ emitted r = [Engine call (Ok pdf)]).
Proof.
  cbv zeta. unfold try_except.
  destruct (HTML_write_pdf_cases h (os_path_join temp_dir "output.pdf") css atts os)
    as [(e & Ho & He)|(pdf & k & Ho & He & Hs)]; rewrite Ho, He.
  - left. by exists e.
  - right. exists pdf. rewrite (stream_file_run _ _ _ _ _ _ Hs).
    cbn [outcome final emitted]. by rewrite basename_output.
Qed.

Lemma after_parts_html request temp_dir fd os h :
  dict_get fd "html" = Some h →
  let r := after_parts weasyprint request temp_dir fd os in
  let call := write_pdf h (os_path_join temp_dir "output.pdf") [stylesheet_of fd]
                (attachments_of fd) in
  ∃ pre,
    Forall (λ ev, ¬ is_write_pdf ev
                  ∧ ∀ s r', ev = Engine (CSS s) r' → s = stylesheet_of fd) pre
    ∧ ((∃ e, outcome r = Raise e ∧ emitted r = pre)
       ∨ (∃ e, outcome r = Ok (web_Response 500 "PDF generation failed.")
               ∧ emitted r = pre ++ [Engine call (Raise e);
                                     Log ERROR (Msg "PDF generation failed") (Some e)])
       ∨ (∃ pdf, outcome r
                 = Ok (web_StreamResponse 200 "OK" pdf_headers
                         (read_chunks (S (length pdf)) (N.to_nat CHUNK_SIZE) pdf))
                 ∧ emitted r = pre ++ [Engine call (Ok pdf)])).
Proof.
  intros Hget. cbv zeta. unfold after_parts, logger_info.
  rewrite Hget, bind_emit_run, bind_engine_run.
  destruct (weasyprint FontConfiguration os) as [b0|e].
  2: { eexists. split; [|left; eexists; split; [done|reflexivity]].
       repeat constructor; try done; by intros []. }
  rewrite bind_engine_run. cbn [outcome final emitted].
  destruct (weasyprint (HTML _ _) os) as [b1|e].
  2: { eexists. split; [|left; eexists; split; [done|reflexivity]].
       repeat constructor; try done; by intros []. }
  rewrite bind_run.
  assert (∃ rc,
    (match dict_get fd "css" with
     | Some css_file =>
         engine weasyprint (CSS (CSS_filename css_file (URLFetcher (dict_values fd))));;
         mret (CSS_filename css_file (URLFetcher (dict_values fd)))
     | None => engine weasyprint (CSS (CSS_string default_css));;
               mret (CSS_string default_css)
     end) os
    = mkRun (match rc with Ok _ => Ok (stylesheet_of fd) | Raise e => Raise e end)
        os [Engine (CSS (stylesheet_of fd)) rc]) as [rc ->].
  { unfold stylesheet_of. destruct (dict_get fd "css") as [f|].
    - exists (weasyprint (CSS (CSS_filename f (URLFetcher (dict_values fd)))) os).
      rewrite bind_engine_run. by destruct (weasyprint _ os).
    - exists (weasyprint (CSS (CSS_string default_css)) os).
      rewrite bind_engine_run. by destruct (weasyprint _ os). }
  cbn [outcome final emitted].
  destruct rc as [b2|e].
  2: { eexists. split; [|left; eexists; split; [done|reflexivity]].
       repeat constructor; try done; try (by intros []). by intros ?? [= ->]. }
  cbn [outcome final emitted].
  exists [Log INFO (Form_data_processed (dict_keys fd)) None;
          Engine FontConfiguration (Ok b0);
          Engine (HTML h (URLFetcher (dict_values fd))) (Ok b1);
          Engine (CSS (stylesheet_of fd)) (Ok b2)].
  split.
  { repeat constructor; try done; try (by intros []). by intros ?? [= ->]. }
  right.
  destruct (write_pdf_and_after request temp_dir h [stylesheet_of fd]
              (attachments_of fd) os) as [(e & Ho & He)|(pdf & Ho & He)].
  - left. exists e. by rewrite Ho, He.
  - right. exists pdf. by rewrite Ho, He.
Qed.

End After_parts.

(** ** The dictionary *)

Lemma dict_get_set d k v k' :
  dict_get (dict_set d k v) k' = if String.eqb k k' then Some v else dict_get d k'.
Proof.
  induction d as [|[k0 v0] d IH]; simpl.
  - rewrite String.eqb_sym. by destruct (String.eqb k' k).
  - destruct (String.eqb k0 k) eqn:E; simpl.
    + apply eqb_true in E as ->. by destruct (String.eqb k k').
    + rewrite IH. destruct (String.eqb k0 k') eqn:E'; [|done].
      apply eqb_true in E' as ->. by rewrite String.eqb_sym, E.
Qed.

Lemma form_data_get_None temp_dir parts fd0 n :
  dict_get fd0 n = None → (∀ p, p ∈ parts → part_name p ≠ Some n) →
  dict_get (form_data_of temp_dir parts fd0) n = None.
Proof.
  revert fd0. induction parts as [|p parts IH]; intros fd0 Hget Hn; [done|].
  unfold form_data_of. simpl. apply IH.
  - destruct (part_name p) as [name|] eqn:Hp; [|done].
    destruct (accepted name); [|done]. rewrite dict_get_set.
    destruct (String.eqb name n) eqn:E; [|done].
    apply eqb_true in E as ->. exfalso. eapply Hn; [|done]. by left.
  - intros q Hq. apply Hn. by right.
Qed.


Lemma filter_dict_set (P : string → bool) d k v :
  filter (λ item, P item.1 = true) (dict_set d k v)
  = if P k then dict_set (filter (λ item, P item.1 = true) d) k v
    else filter (λ item, P item.1 = true) d.
Proof.
  induction d as [|[k0 v0] d IH]; simpl.
  - destruct (P k) eqn:HP.
    + by rewrite filter_cons_True.
    + rewrite filter_cons_False; [done|]. simpl. congruence.
  - destruct (String.eqb k0 k) eqn:E.
    + apply eqb_true in E as ->. destruct (P k) eqn:HP.
      * rewrite !filter_cons_True by done. simpl. by rewrite String.eqb_refl.
      * rewrite !filter_cons_False by (simpl; congruence). done.
    + destruct (P k0) eqn:HP0.
      * rewrite !filter_cons_True by done. rewrite IH.
        destruct (P k); [|done]. simpl. by rewrite E.
      * rewrite !filter_cons_False by (simpl; congruence). apply IH.
Qed.

Lemma filter_form_data (P : string → bool) temp_dir parts fd0 :
  filter (λ item, P item.1 = true) (form_data_of temp_dir parts fd0)
  = form_data_of temp_dir (filter (λ p, named P p = true) parts)
      (filter (λ item, P item.1 = true) fd0).
Proof.
  revert fd0. induction parts as [|p parts IH]; intros fd0; [done|].
  unfold form_data_of in *. cbn [fold_left]. rewrite IH.
  destruct (named P p) eqn:HP.
  - rewrite filter_cons_True by done. cbn [fold_left]. unfold named in HP.
    destruct (part_name p) as [name|]; [|done].
    destruct (accepted name); [|done]. by rewrite filter_dict_set, HP.
  - rewrite filter_cons_False by congruence. unfold named in HP.
    destruct (part_name p) as [name|]; [|done].
    destruct (accepted name); [|done]. by rewrite filter_dict_set, HP.
Qed.

Lemma dict_set_fresh d k v : k ∉ dict_keys d → dict_set d k v = d ++ [(k, v)].
Proof.
  induction d as [|[k0 v0] d IH]; simpl; [done|].
  intros Hk. apply not_elem_of_cons in Hk as [Hne Hk].
  destruct (String.eqb k0 k) eqn:E; [by apply eqb_true in E|].
  by rewrite IH.
Qed.

(** With names that do not repeat, the dictionary lists the accepted parts
    in the order of the request. *)
Lemma form_data_fresh temp_dir parts fd0 :
  Forall (λ p, is_accepted p = true) parts →
  NoDup (dict_keys fd0 ++ map (λ p, default "" (part_name p)) parts) →
  form_data_of temp_dir parts fd0
  = fd0 ++ map (λ p, (default "" (part_name p), path_in temp_dir p)) parts.
Proof.
  intros Hall. revert fd0.
  induction Hall as [|p parts Hp _ IH]; intros fd0 Hnd; [by rewrite app_nil_r|].
  unfold form_data_of in *. cbn [fold_left map] in *. unfold is_accepted in Hp.
  destruct (part_name p) as [name|]; [|done]. rewrite Hp. simpl in Hnd.
  apply NoDup_app in Hnd as (Hnd0 & Hdis & Hnd1).
  apply NoDup_cons in Hnd1 as [Hname Hnd1].
  rewrite dict_set_fresh.
  2: { intros Hin. apply (Hdis _ Hin). by left. }
  rewrite IH, <- app_assoc; [done|].
  unfold dict_keys. rewrite fmap_app. simpl. rewrite <- app_assoc. simpl.
  apply NoDup_app. split; [done|]. split; [|by apply NoDup_cons].
  done.
Qed.





Lemma reader_parts_map_Ok parts : reader_parts (map Ok parts) = parts.
Proof.
  induction parts as [|p parts IH]; [done|].
  unfold reader_parts in *. cbn. by f_equal.
Qed.

(** ** The runs of the handler *)

Lemma raises_os_mkdir p : raises_only is_Exc (os_mkdir p).
Proof.
  intros os e. unfold os_mkdir. destruct (String.eqb p ""); [by intros [= <-]|].
  destruct (walk _ _ _) eqn:Hw; [|intros [= <-]; by eapply walk_raises].
  destruct (names_directory _); [by intros [= <-]|].
  destruct (fs os !! _); [by intros [= <-] | done].
Qed.

Lemma raises_mkdtemp_from dir names : raises_only is_Exc (mkdtemp_from dir names).
Proof.
  induction names as [|name names IH]; intros os e; [by intros [= <-]|].
  cbn [mkdtemp_from]. rewrite bind_run. cbn [outcome final emitted].
  unfold try_except. cbn [outcome final emitted].
  destruct (outcome (os_mkdir _ _)) as [k|e'] eqn:Ho; [done|].
  destruct (is_class _ e'); [apply IH|].
  intros [= <-]. by eapply raises_os_mkdir.
Qed.

Lemma raises_mkdtemp : raises_only is_Exc mkdtemp.
Proof. intros os. apply raises_mkdtemp_from. Qed.

Section Runs.

Variable weasyprint : EngineCall → OS → result bytes.

(** The ways through the handler: [request.multipart()] raises; no
    temporary directory can be made; the loop over the parts raises; the
    loop ends and the rest of the handler runs. *)
Lemma render_pdf_inv request os :
  let r := render_pdf weasyprint request os in
  (∃ e, multipart request = Raise e ∧ outcome r = Raise e ∧ emitted r = [L_received])
  ∨ (∃ reader e, multipart request = Ok reader ∧ outcome r = Raise e ∧ is_Exc e
                 ∧ emitted r = [L_received; L_processing])
  ∨ (∃ reader d k,
       multipart request = Ok reader
       ∧ let p := read_parts reader d [] (final (mkdtemp os)) in
         (∃ e, outcome p = Raise e ∧ outcome r = Raise e
               ∧ emitted r = L_received :: L_processing
                             :: TemporaryDirectory d k :: emitted p)
         ∨ (∃ fd, outcome p = Ok fd
                  ∧ let a := after_parts weasyprint request d fd (final p) in
                    outcome r = outcome a
                    ∧ emitted r = L_received :: L_processing
                                  :: TemporaryDirectory d k
                                  :: emitted p ++ emitted a)).
Proof.
  cbv zeta. pose proof (render_pdf_run weasyprint request os) as Hrun.
  cbv zeta in Hrun. destruct (multipart request) as [reader|e].
  2: { left. exists e. by rewrite Hrun. }
  right. destruct (outcome (mkdtemp os)) as [[d k]|e] eqn:Hmk.
  2: { left. exists reader, e. rewrite Hrun. split; [done|]. split; [done|].
       split; [|done]. by eapply raises_mkdtemp. }
  right. exists reader, d, k. split; [done|]. rewrite Hrun.
  cbn [outcome emitted]. rewrite render_in_split, bind_run.
  destruct (outcome (read_parts reader d [] (final (mkdtemp os)))) as [fd|e].
  - right. by exists fd.
  - left. by exists e.
Qed.

Lemma logs_no_engine (l : list Event) c r : Forall is_log l → ¬ In (Engine c r) l.
Proof. intros Hl Hin. by apply (proj1 (List.Forall_forall _ _) Hl) in Hin. Qed.

(** Where a call of [write_pdf] comes from, and what follows it. *)
Lemma write_pdf_event request os h t css atts r' :
  In (Engine (write_pdf h t css atts) r') (emitted (render_pdf weasyprint request os)) →
  ∃ parts d k,
    multipart request = Ok (map Ok parts)
    ∧ In (TemporaryDirectory d k) (emitted (render_pdf weasyprint request os))
    ∧ let fd := form_data_of d parts [] in
      dict_get fd "html" = Some h
      ∧ t = os_path_join d "output.pdf"
      ∧ css = [stylesheet_of fd]
      ∧ atts = attachments_of fd
      ∧ match r' with
        | Raise e =>
            outcome (render_pdf weasyprint request os)
            = Ok (web_Response 500 "PDF generation failed.")
            ∧ In (Log ERROR (Msg "PDF generation failed") (Some e))
                 (emitted (render_pdf weasyprint request os))
        | Ok pdf =>
            outcome (render_pdf weasyprint request os)
            = Ok (web_StreamResponse 200 "OK" pdf_headers
                    (read_chunks (S (length pdf)) (N.to_nat CHUNK_SIZE) pdf))
        end.
Proof.
  intros Hin.
  destruct (render_pdf_inv request os)
    as [(e & _ & _ & He)|[(reader & e & _ & _ & _ & He)|(reader & d & k & Hm & Hp)]].
  { rewrite He in Hin. by destruct Hin as [|[]]. }
  { rewrite He in Hin. by destruct Hin as [|[|[]]]. }
  cbv zeta in Hp.
  pose proof (emits_read_parts reader d [] (final (mkdtemp os))) as Hlog.
  destruct Hp as [(e & _ & _ & He)|(fd & Hfd & Ho & He)].
  { rewrite He in Hin. destruct Hin as [|[|[|Hin]]]; try done.
    by apply logs_no_engine in Hin. }
  apply read_parts_ok in Hfd as (parts & -> & -> & _).
  exists parts, d, k. split; [done|]. rewrite He. split; [by do 2 right; left|].
  cbv zeta. rewrite He in Hin. destruct Hin as [|[|[|Hin]]]; try done.
  apply in_app_or in Hin as [Hin|Hin]; [by apply logs_no_engine in Hin|].
  set (fd := form_data_of d parts []) in *.
  set (os1 := final (read_parts (map Ok parts) d [] (final (mkdtemp os)))) in *.
  destruct (dict_get fd "html") as [h0|] eqn:Hget.
  2: { rewrite (after_parts_no_html _ _ _ _ _ Hget) in Hin.
       destruct (weasyprint FontConfiguration os1); cbn in Hin;
         by repeat destruct Hin as [|Hin]. }
  destruct (after_parts_html weasyprint request d fd os1 h0 Hget)
    as (pre & Hpre & Hcases).
  assert (∀ ev, In ev pre → ¬ is_write_pdf ev) as Hnot.
  { intros ev Hev. by apply (proj1 (List.Forall_forall _ _) Hpre) in Hev as [? _]. }
  destruct Hcases as [(e & _ & Hem)|[(e & Hout & Hem)|(pdf & Hout & Hem)]];
    rewrite Hem in Hin.
  - by apply Hnot in Hin.
  - apply in_app_or in Hin as [Hin|Hin]; [by apply Hnot in Hin|].
    destruct Hin as [[= <- <- <- <- <-]|[|[]]]; [|done].
    rewrite Ho, Hout, Hem. repeat split; try done.
    do 3 right. apply in_or_app. right. apply in_or_app. right. by right; left.
  - apply in_app_or in Hin as [Hin|Hin]; [by apply Hnot in Hin|].
    destruct Hin as [[= <- <- <- <- <-]|[]].
    rewrite Ho, Hout. by repeat split.
Qed.

End Runs.

Lemma CHUNK_SIZE_pos : (0 < N.to_nat CHUNK_SIZE)%nat.
Proof. unfold CHUNK_SIZE. lia. Qed.


Lemma parts_of_Ok request parts :
  multipart request = Ok (map Ok parts) → parts_of request = parts.
Proof. unfold parts_of. intros ->. apply reader_parts_map_Ok. Qed.

Lemma attachment_accepted p : is_attachment p = true → is_accepted p = true.
Proof.
  unfold is_attachment, is_accepted, accepted.
  destruct (part_name p); [|done]. intros ->. by rewrite orb_true_r.
Qed.

Lemma attachment_not_asset p : is_attachment p = true → is_asset p = false.
Proof.
  unfold is_attachment, is_asset. destruct (part_name p) as [name|]; [|done].
  destruct name as [|a [|b name]]; [done| |].
  - simpl. by rewrite andb_false_r.
  - simpl. destruct (Ascii.eqb_spec b "t") as [->|]; [|by rewrite andb_false_r].
    intros _. by rewrite andb_false_r.
Qed.

Lemma attachments_of_form_data temp_dir parts :
  attachments_of (form_data_of temp_dir parts [])
  = dict_values (form_data_of temp_dir (filter (λ p, is_attachment p = true) parts) []).
Proof.
  unfold attachments_of, dict_values. f_equal.
  apply (filter_form_data (λ name, startswith name "attachment.") temp_dir parts []).
Qed.

Lemma form_data_in_order temp_dir parts :
  Forall (λ p, is_accepted p = true) parts →
  NoDup (map part_name parts) →
  dict_values (form_data_of temp_dir parts []) = map (path_in temp_dir) parts.
Proof.
  intros Hacc Hnd. rewrite form_data_fresh; [|done|].
  - unfold dict_values. simpl. rewrite <- list_fmap_compose. done.
  - simpl. change (map (λ p, default "" (part_name p)) parts)
      with ((λ p, default "" (part_name p)) <$> parts).
    rewrite (list_fmap_compose part_name (default "")).
    apply NoDup_fmap_2_strong; [|done].
    intros x y [p [-> Hp]]%list_elem_of_fmap [q [-> Hq]]%list_elem_of_fmap.
    rewrite Forall_forall in Hacc.
    pose proof (Hacc _ Hp) as Hp'. pose proof (Hacc _ Hq) as Hq'.
    unfold is_accepted in Hp', Hq'.
    destruct (part_name p), (part_name q); simpl; try done. by intros ->.
Qed.

(** C5, as the code has it: the attachments handed to [write_pdf] are the
    values that the dictionary holds under the names that start with
    [attachment.]: a name that comes twice keeps its first place and its
    last path.  When these names are pairwise distinct, the attachments are
    the paths of the attachment parts in the order of the request; asset
    parts are not among the parts they are taken from. *)
Theorem attachments_in_order
    (weasyprint : EngineCall → OS → result bytes) (request : Request) (os : OS)
    (h t : string) (css : list Stylesheet) (atts : list string) (r : result bytes) :
  In (Engine (write_pdf h t css atts) r) (emitted (render_pdf weasyprint request os)) →
  let attached := filter (λ p, is_attachment p = true) (parts_of request) in
  ∃ d k,
    In (TemporaryDirectory d k) (emitted (render_pdf weasyprint request os))
    ∧ atts = dict_values (form_data_of d attached [])
    ∧ Forall (λ p, is_asset p = false) attached
    ∧ (NoDup (map part_name attached) → atts = map (path_in d) attached).
Proof.
  intros (parts & d & k & Hm & Htd & _ & _ & _ & -> & _)%write_pdf_event.
  cbv zeta. rewrite (parts_of_Ok _ _ Hm). exists d, k. split; [done|].
  rewrite attachments_of_form_data. split; [done|]. split.
  { apply Forall_forall. intros p [Hp _]%list_elem_of_filter.
    by apply attachment_not_asset. }
  intros Hnd. apply form_data_in_order; [|done].
  apply Forall_forall. intros p [Hp _]%list_elem_of_filter. by apply attachment_accepted.
Qed.


(** C4, as the code has it: for a request without a part named [html] no
    call into the engine renders anything, and a response that the handler
    returns is the response 400 with the text "No html file provided."; the
    handler returns none when an exception leaves it, as when the reader
    raises or a part cannot be saved. *)
Theorem missing_html
    (weasyprint : EngineCall → OS → result bytes) (request : Request) (os : OS) :
  (∀ p, p ∈ parts_of request → part_name p ≠ Some "html") →
  Forall (λ ev, is_render_call ev = false) (emitted (render_pdf weasyprint request os))
  ∧ ∀ resp, outcome (render_pdf weasyprint request os) = Ok resp →
            resp = web_Response 400 "No html file provided.".
Proof.
  intros Hno.
  assert (∀ l, Forall is_log l → Forall (λ ev, is_render_call ev = false) l) as Hlogs.
  { intros l Hl. eapply Forall_impl; [exact Hl|]. by intros []. }
  destruct (render_pdf_inv weasyprint request os)
    as [(e & _ & Ho & He)|[(reader & e & _ & Ho & _ & He)|(reader & d & k & Hm & Hp)]].
  { rewrite Ho, He. split; [by repeat constructor | done]. }
  { rewrite Ho, He. split; [by repeat constructor | done]. }
  cbv zeta in Hp.
  pose proof (emits_read_parts reader d [] (final (mkdtemp os))) as Hlog.
  destruct Hp as [(e & _ & Ho & He)|(fd & Hfd & Ho & He)].
  { rewrite Ho, He. split; [|done]. repeat (constructor; [done|]). by apply Hlogs. }
  rewrite Ho, He.
  apply read_parts_ok in Hfd as (parts & -> & -> & _).
  unfold parts_of in Hno. rewrite Hm, reader_parts_map_Ok in Hno.
  rewrite after_parts_no_html by (by apply form_data_get_None).
  destruct (weasyprint FontConfiguration _); cbn [outcome emitted].
  - split; [|by intros ? [= <-]].
    repeat (constructor; [done|]). apply Forall_app. split; [by apply Hlogs|].
    by repeat constructor.
  - split; [|done].
    repeat (constructor; [done|]). apply Forall_app. split; [by apply Hlogs|].
    by repeat constructor.
Qed.




(** ** The theorems on examples *)

Ltac find_in := vm_compute; repeat (first [left; reflexivity | right]).


Lemma workspace_removed_witness :
  fs (final (render_pdf weasyprint_ok request_with_attachments example_os))
    !! ["tmp"; "tmpab12cd34"; "index.html"] = None
  ∧ fs (final (render_pdf weasyprint_broken request_repeated_name example_os))
      !! ["tmp"; "tmpab12cd34"] = None
  ∧ fs (final (render_pdf weasyprint_ok request_css_in_subdir example_os))
      !! ["tmp"; "tmpab12cd34"] = None.
Proof.
  split; [|split].
  - apply (workspace_removed weasyprint_ok request_with_attachments example_os
             "/tmp/tmpab12cd34" ["tmp"; "tmpab12cd34"]); [find_in|].
    by exists ["index.html"].
  - apply (workspace_removed weasyprint_broken request_repeated_name example_os
             "/tmp/tmpab12cd34" ["tmp"; "tmpab12cd34"]); [find_in|].
    by exists [].
  - apply (workspace_removed weasyprint_ok request_css_in_subdir example_os
             "/tmp/tmpab12cd34" ["tmp"; "tmpab12cd34"]); [find_in|].
    by exists [].
Defined.

Lemma missing_html_witness :
  Forall (λ ev, is_render_call ev = false)
    (emitted (render_pdf weasyprint_ok request_css_only example_os))
  ∧ ∀ resp, outcome (render_pdf weasyprint_ok request_css_only example_os) = Ok resp →
            resp = web_Response 400 "No html file provided.".
Proof.
  apply (missing_html weasyprint_ok request_css_only example_os).
  intros p Hp. apply list_elem_of_singleton in Hp. subst p. discriminate.
Defined.

(** C4 as stated fails: a request without a part named [html] whose
    stylesheet declares a file name in a directory.  The directory does not
    exist in the fresh temporary directory, [open] raises, and the client
    does not get the response 400.  The same happens with a stylesheet that
    has no file name: [os.path.join] raises. *)
Lemma missing_html_counterexample :
  Forall (λ p, part_name p ≠ Some "html") (parts_of request_css_in_subdir)
  ∧ outcome (render_pdf weasyprint_ok request_css_in_subdir example_os)
    = Raise (FileNotFoundError "styles")
  ∧ client_status (outcome (render_pdf weasyprint_ok request_css_in_subdir example_os))
    = 500
  ∧ Forall (λ p, part_name p ≠ Some "html") (parts_of request_css_field)
  ∧ outcome (render_pdf weasyprint_ok request_css_field example_os)
    = Raise (TypeError "expected str, bytes or os.PathLike object, not NoneType").
Proof.
  split; [by repeat constructor|]. split; [vm_compute; reflexivity|].
  split; [vm_compute; reflexivity|]. split; [by repeat constructor|].
  vm_compute; reflexivity.
Qed.

Lemma attachments_in_order_witness :
  let attached :=
    filter (λ p, is_attachment p = true) (parts_of request_with_attachments) in
  ∃ d k,
    In (TemporaryDirectory d k)
       (emitted (render_pdf weasyprint_ok request_with_attachments example_os))
    ∧ ["/tmp/tmpab12cd34/terms.pdf"; "/tmp/tmpab12cd34/data.csv"]
      = dict_values (form_data_of d attached [])
    ∧ Forall (λ p, is_asset p = false) attached
    ∧ (NoDup (map part_name attached) →
       ["/tmp/tmpab12cd34/terms.pdf"; "/tmp/tmpab12cd34/data.csv"]
       = map (path_in d) attached).
Proof.
  apply (attachments_in_order weasyprint_ok request_with_attachments example_os
           "/tmp/tmpab12cd34/index.html" "/tmp/tmpab12cd34/output.pdf"
           [CSS_string default_css]
           ["/tmp/tmpab12cd34/terms.pdf"; "/tmp/tmpab12cd34/data.csv"]
           (Ok pdf_bytes)).
  find_in.
Defined.

(** C5 as stated fails: the name [attachment.a] comes first and last.
    The engine gets two attachments, the last part in the first place, and
    not the three paths in the order of the request. *)
Lemma attachments_in_order_counterexample :
  In (Engine (write_pdf "/tmp/tmpab12cd34/index.html" "/tmp/tmpab12cd34/output.pdf"
                [CSS_string default_css]
                ["/tmp/tmpab12cd34/third.txt"; "/tmp/tmpab12cd34/second.txt"])
             (Ok pdf_bytes))
     (emitted (render_pdf weasyprint_ok request_repeated_name example_os))
  ∧ map (path_in "/tmp/tmpab12cd34")
        (filter (λ p, is_attachment p = true) (parts_of request_repeated_name))
    = ["/tmp/tmpab12cd34/first.txt"; "/tmp/tmpab12cd34/second.txt";
       "/tmp/tmpab12cd34/third.txt"].
Proof. split; [find_in | vm_compute; reflexivity]. Qed.








Lemma save_part_to_file_destination_witness :
  "/tmp/tmpab12cd34/index.html" = os_path_join "/tmp/tmpab12cd34" "index.html"
  ∧ ∃ k', ["tmp"; "tmpab12cd34"] `prefix_of` k' ∧ k' ≠ ["tmp"; "tmpab12cd34"]
          ∧ final (save_part_to_file html_part "/tmp/tmpab12cd34" example_os_in_request)
            = set_fs (<[k' := File (written (part_chunks html_part))]>
                        (fs example_os_in_request)) example_os_in_request.
Proof.
  apply (save_part_to_file_destination html_part "/tmp/tmpab12cd34"
           example_os_in_request "index.html" ["tmp"; "tmpab12cd34"]
           "/tmp/tmpab12cd34/index.html").
  - reflexivity.
  - vm_compute. reflexivity.
  - reflexivity.
  - repeat constructor. discriminate.
  - vm_compute. reflexivity.
Defined.

(** C10 as stated fails: a part that declares the file name [../evil.sh]
    is saved, and its file is [/tmp/evil.sh], outside the directory of the
    request [/tmp/tmpab12cd34]; an absolute file name is taken as it is. *)
Lemma save_part_to_file_counterexample :
  let saved := save_part_to_file (part "asset.x" "../evil.sh" "#!/bin/sh")
                 "/tmp/tmpab12cd34" example_os_in_request in
  stat example_os_in_request "/tmp/tmpab12cd34" = Ok (["tmp"; "tmpab12cd34"], Dir)
  ∧ outcome saved = Ok "/tmp/tmpab12cd34/../evil.sh"
  ∧ fs (final saved) !! ["tmp"; "evil.sh"]
    = Some (File (String.list_byte_of_string "#!/bin/sh"))
  ∧ ¬ ["tmp"; "tmpab12cd34"] `prefix_of` ["tmp"; "evil.sh"]
  ∧ os_path_join "/tmp/tmpab12cd34" "/srv/app.py" = "/srv/app.py".
Proof.
  cbv zeta. split; [vm_compute; reflexivity|]. split; [vm_compute; reflexivity|].
  split; [vm_compute; reflexivity|]. split; [|reflexivity].
  intros [k Hk]. discriminate.
Qed.

(** * Further properties of the server *)

(** ** [stream_file] *)

Lemma read_chunks_bounded fuel size (data : bytes) :
  Forall (chunk_ok size) (read_chunks fuel size data).
Proof.
  revert data. induction fuel as [|fuel IH]; intros data; [constructor|].
  cbn [read_chunks]. destruct (take size data) as [|b chunk] eqn:Ht; [constructor|].
  constructor; [|apply IH]. split; [done|].
  rewrite <- Ht, length_take. lia.
Qed.

(** X1: A file that exists is streamed whole, in chunks that are not empty and
    hold at most [CHUNK_SIZE] bytes; the response has the status 200, the
    content type that was asked for and the last component of the path as
    the name of the attachment; nothing on the machine changes. *)
Theorem stream_file_chunks
    (request : Request) (filename content_type : string) (os : OS)
    (k : key) (content : bytes) :
  stat os filename = Ok (k, File content) →
  ∃ body,
    stream_file request filename content_type os
    = mkRun
        (Ok (web_StreamResponse 200 "OK"
               [("Content-Type", content_type);
                ("Content-Disposition",
                 "attachment; filename=" +:+ dq +:+ basename filename +:+ dq)]
               body))
        os []
    ∧ concat body = content
    ∧ Forall (chunk_ok (N.to_nat CHUNK_SIZE)) body.
Proof.
  intros Hs. eexists. split; [by eapply stream_file_run|]. split.
  - apply read_chunks_concat; [apply CHUNK_SIZE_pos | lia].
  - apply read_chunks_bounded.
Qed.

(** ** [save_part_to_file] *)

Lemma open_wb_raises p os e :
  outcome (open_wb p os) = Raise e → open_wb p os = mkRun (Raise e) os [].
Proof.
  unfold open_wb. destruct (resolve_parent os p) as [[dk c]|]; [|by intros [= ->]].
  destruct (names_directory c); [by intros [= ->]|].
  destruct (fs os !! (dk ++ [c])) as [[]|]; try done. by intros [= ->].
Qed.

(** The run of [save_part_to_file] in full, when the file can be opened. *)
Lemma save_part_to_file_run part directory os filename k :
  part_filename part = Some filename →
  outcome (open_wb (os_path_join directory filename) os) = Ok k →
  save_part_to_file part directory os
  = mkRun (Ok (os_path_join directory filename))
      (set_fs (<[k := File (written (part_chunks part))]> (fs os)) os)
      [Log INFO (Saved_part (part_name part) (os_path_join directory filename)) None].
Proof.
  intros Hf Ho. unfold save_part_to_file. rewrite Hf, bind_run.
  cbn [outcome final emitted mret M_ret]. rewrite bind_run.
  apply open_wb_ok in Ho as (dk & c & Hr & -> & Hn & Hd & ->).
  cbn [outcome final emitted].
  rewrite bind_run, (write_chunks_run _ _ []) by apply lookup_insert_eq.
  cbn [outcome final emitted app].
  rewrite set_fs_set_fs. change (fs (set_fs ?f os)) with f.
  rewrite insert_insert_eq.
  unfold os_path_exists. rewrite bind_lift_run.
  rewrite (stat_after_write _ _ _ _ _ Hr Hn Hd).
  reflexivity.
Qed.

(** X2: The file that [save_part_to_file] has written reads back as the chunks
    of the part up to the first empty one, whatever the file held before;
    the one record in the log is the one that tells the path. *)
Theorem save_part_to_file_round_trip
    (part : Part) (directory : string) (os : OS) (out : string) :
  outcome (save_part_to_file part directory os) = Ok out →
  outcome (open_rb out (final (save_part_to_file part directory os)))
  = Ok (written (part_chunks part))
  ∧ emitted (save_part_to_file part directory os)
    = [Log INFO (Saved_part (part_name part) out) None]
  ∧ (Forall (λ chunk, chunk ≠ []) (part_chunks part) →
     written (part_chunks part) = concat (part_chunks part)).
Proof.
  intros Hout.
  apply save_part_to_file_ok in Hout as Hok.
  destruct Hok as (filename & dk & c & Hf & -> & Hr & Hn & Hd & Hfin).
  assert (outcome (open_wb (os_path_join directory filename) os) = Ok (dk ++ [c])) as Ho.
  { unfold open_wb. rewrite Hr, Hn. by destruct (fs os !! (dk ++ [c])) as [[]|]. }
  rewrite (save_part_to_file_run _ _ _ _ _ Hf Ho). cbn [outcome final emitted].
  split; [|split; [done|]].
  - unfold open_rb, lift. cbn [outcome]. by rewrite (stat_after_write _ _ _ _ _ Hr Hn Hd).
  - generalize (part_chunks part).
    induction 1 as [|chunk chunks Hc _ IH]; [done|].
    destruct chunk as [|b chunk]; [done|].
    cbn [written concat]. by rewrite IH.
Qed.

Lemma save_part_to_file_raise_run part directory os e :
  outcome (save_part_to_file part directory os) = Raise e →
  save_part_to_file part directory os = mkRun (Raise e) os [].
Proof.
  destruct (part_filename part) as [filename|] eqn:Hf.
  - destruct (outcome (open_wb (os_path_join directory filename) os)) as [k|e'] eqn:Ho.
    + by rewrite (save_part_to_file_run _ _ _ _ _ Hf Ho).
    + apply open_wb_raises in Ho. unfold save_part_to_file. rewrite Hf, bind_run.
      cbn [outcome final emitted mret M_ret]. rewrite bind_run, Ho.
      cbn [outcome final emitted app]. by intros [= ->].
  - unfold save_part_to_file. rewrite Hf, bind_run.
    cbn [outcome final emitted raise]. by intros [= ->].
Qed.


(** ** The loop over the parts *)

Lemma last_named_cons n p parts :
  last_named n (p :: parts)
  = match last_named n parts with
    | Some q => Some q
    | None => if decide (part_name p = Some n) then Some p else None
    end.
Proof.
  unfold last_named. destruct (decide (part_name p = Some n)).
  - rewrite filter_cons_True by done. rewrite last_cons. by destruct (last _).
  - rewrite filter_cons_False by done. by destruct (last _).
Qed.

(** What the dictionary holds under a name after the loop. *)
Lemma form_data_of_get d parts fd0 n :
  dict_get (form_data_of d parts fd0) n
  = match (if accepted n then last_named n parts else None) with
    | Some p => Some (path_in d p)
    | None => dict_get fd0 n
    end.
Proof.
  revert fd0. induction parts as [|p parts IH]; intros fd0.
  { by destruct (accepted n). }
  unfold form_data_of in *. cbn [fold_left]. rewrite IH, last_named_cons.
  destruct (accepted n) eqn:Hn.
  - destruct (last_named n parts) as [q|]; [done|].
    destruct (decide (part_name p = Some n)) as [Hp|Hp].
    + by rewrite Hp, Hn, dict_get_set, String.eqb_refl.
    + destruct (part_name p) as [name|]; [|done].
      destruct (accepted name); [|done]. rewrite dict_get_set.
      destruct (String.eqb name n) eqn:E; [|done].
      apply eqb_true in E. by subst name.
  - destruct (part_name p) as [name|]; [|done].
    destruct (accepted name) eqn:Hacc; [|done]. rewrite dict_get_set.
    destruct (String.eqb name n) eqn:E; [|done].
    apply eqb_true in E. congruence.
Qed.

Lemma dict_keys_set d k v :
  dict_keys (dict_set d k v)
  = if bool_decide (k ∈ dict_keys d) then dict_keys d else dict_keys d ++ [k].
Proof.
  induction d as [|[k0 v0] d IH]; [done|]. cbn [dict_set].
  destruct (String.eqb k0 k) eqn:E.
  - apply eqb_true in E as ->. rewrite bool_decide_eq_true_2; [done|]. by left.
  - apply eqb_false in E. unfold dict_keys in *. cbn [fmap list_fmap fst].
    rewrite IH. destruct (bool_decide_reflect (k ∈ d.*1)) as [Hin|Hin].
    + rewrite bool_decide_eq_true_2; [done|]. by right.
    + rewrite bool_decide_eq_false_2; [done|].
      intros [?|?]%elem_of_cons; [congruence|done].
Qed.

Lemma dict_keys_set_NoDup d k v : NoDup (dict_keys d) → NoDup (dict_keys (dict_set d k v)).
Proof.
  intros Hnd. rewrite dict_keys_set.
  destruct (bool_decide_reflect (k ∈ dict_keys d)) as [Hin|Hin]; [done|].
  apply NoDup_app. split; [done|]. split; [|apply NoDup_singleton].
  by intros x Hx ->%list_elem_of_singleton.
Qed.

Lemma form_data_of_keys_NoDup d parts fd0 :
  NoDup (dict_keys fd0) → NoDup (dict_keys (form_data_of d parts fd0)).
Proof.
  revert fd0. induction parts as [|p parts IH]; intros fd0 Hnd; [done|].
  unfold form_data_of in *. cbn [fold_left]. apply IH.
  destruct (part_name p) as [name|]; [|done].
  destruct (accepted name); [|done]. by apply dict_keys_set_NoDup.
Qed.

Lemma dict_values_set_elem d k v x :
  x ∈ dict_values (dict_set d k v) → x = v ∨ x ∈ dict_values d.
Proof.
  induction d as [|[k0 v0] d IH]; cbn [dict_set].
  - intros ->%list_elem_of_singleton. by left.
  - unfold dict_values in *. destruct (String.eqb k0 k); cbn [fmap list_fmap snd].
    + intros [->|Hx]%elem_of_cons; [by left|]. right. by right.
    + intros [->|Hx]%elem_of_cons; [right; by left|].
      destruct (IH Hx); [by left | right; by right].
Qed.

Lemma dict_get_values d k v : dict_get d k = Some v → v ∈ dict_values d.
Proof.
  induction d as [|[k0 v0] d IH]; [done|]. cbn [dict_get].
  unfold dict_values in *. cbn [fmap list_fmap snd].
  destruct (String.eqb k0 k); [intros [= ->]; by left|]. intros ?%IH. by right.
Qed.

(** The values of the dictionary are paths of accepted parts. *)
Lemma form_data_of_values d parts fd0 x :
  x ∈ dict_values (form_data_of d parts fd0) →
  x ∈ dict_values fd0 ∨ ∃ p, p ∈ parts ∧ is_accepted p = true ∧ x = path_in d p.
Proof.
  revert fd0. induction parts as [|p parts IH]; intros fd0; [by left|].
  unfold form_data_of in *. cbn [fold_left]. intros [Hx|(q & Hq & Hacc & ->)]%IH.
  - destruct (part_name p) as [name|] eqn:Hp; [|by left].
    destruct (accepted name) eqn:Hn; [|by left].
    apply dict_values_set_elem in Hx as [->|Hx]; [|by left].
    right. exists p. split; [by left|]. unfold is_accepted. by rewrite Hp.
  - right. exists q. split; [by right|done].
Qed.

(** X4: The dictionary that the loop leaves: no name twice; under an accepted
    name the path of the last part of that name, the earlier ones being
    replaced; nothing under any other name. *)
Theorem read_parts_dictionary
    (reader : list (result Part)) (temp_dir : string) (os : OS) (fd : dict) :
  outcome (read_parts reader temp_dir [] os) = Ok fd →
  ∃ parts,
    reader = map Ok parts
    ∧ NoDup (dict_keys fd)
    ∧ ∀ name, dict_get fd name
              = if accepted name then path_in temp_dir <$> last_named name parts
                else None.
Proof.
  intros (parts & -> & -> & _)%read_parts_ok. exists parts. split; [done|]. split.
  - apply form_data_of_keys_NoDup. constructor.
  - intros name. rewrite form_data_of_get.
    destruct (accepted name); [|done]. by destruct (last_named name parts).
Qed.

(** A part under a name that is not accepted is logged and left alone:
    the loop ends with the same dictionary or exception and with the same
    file tree as without such parts. *)
Lemma read_parts_skipped reader temp_dir fd os :
  let reader' := filter (λ item, skipped item = false) reader in
  outcome (read_parts reader temp_dir fd os) = outcome (read_parts reader' temp_dir fd os)
  ∧ final (read_parts reader temp_dir fd os) = final (read_parts reader' temp_dir fd os).
Proof.
  cbv zeta. revert fd os.
  induction reader as [|[part|e] reader IH]; intros fd os; [done| |].
  - destruct (skipped (Ok part)) eqn:Hs.
    + rewrite filter_cons_False by (rewrite Hs; done).
      cbn [read_parts]. unfold logger_info. rewrite bind_emit_run.
      cbn [outcome final]. simpl in Hs.
      destruct (part_name part) as [name|]; [|done].
      destruct (accepted name); [done|]. apply IH.
    + rewrite filter_cons_True by done.
      cbn [read_parts]. unfold logger_info. rewrite !bind_emit_run.
      cbn [outcome final]. simpl in Hs.
      destruct (part_name part) as [name|]; [|done].
      destruct (accepted name); [|done]. rewrite !bind_run.
      destruct (outcome (save_part_to_file part temp_dir os)); [|done].
      cbn [outcome final]. apply IH.
  - by rewrite filter_cons_True.
Qed.

(** ** The files of the parts exist *)

Lemma is_file_insert os k0 content0 p :
  fs os !! k0 ≠ Some Dir → is_file os p →
  is_file (set_fs (<[k0 := File content0]> (fs os)) os) p.
Proof.
  intros Hk0 (k & content & Hs). revert Hs. unfold is_file, stat.
  destruct (resolve_parent os p) as [[dk c]|] eqn:Hr; [|done].
  assert (resolve_parent (set_fs (<[k0 := File content0]> (fs os)) os) p
          = Ok (dk, c)) as ->.
  { revert Hr. unfold resolve_parent, start_of. simpl.
    destruct (String.eqb p ""); [done|].
    destruct (walk (fs os) _ _) as [dk'|] eqn:Hw; [|done]. intros [= -> <-].
    erewrite walk_stable; [done| |done].
    apply (stable_insert_file os _ content0 Hk0). }
  destruct (_ || _); [done|]. destruct (String.eqb c ".."); [done|].
  destruct (fs os !! (dk ++ [c])) as [n|] eqn:Hn; [|done].
  intros [= <- ->]. cbn [fs set_fs].
  destruct (decide (k0 = dk ++ [c])) as [->|Hne].
  - rewrite lookup_insert_eq. by eexists _, _.
  - rewrite lookup_insert_ne, Hn by done. by eexists _, _.
Qed.

Lemma save_part_to_file_final part directory os :
  final (save_part_to_file part directory os) = os
  ∨ ∃ k0 content0,
      fs os !! k0 ≠ Some Dir
      ∧ final (save_part_to_file part directory os)
        = set_fs (<[k0 := File content0]> (fs os)) os.
Proof.
  destruct (outcome (save_part_to_file part directory os)) as [out|e] eqn:Ho.
  - apply save_part_to_file_ok in Ho as (f & dk & c & _ & _ & _ & _ & Hd & Hfin).
    right. by eexists _, _.
  - left. by rewrite (save_part_to_file_raise_run _ _ _ _ Ho).
Qed.

Lemma save_part_to_file_is_file part directory os out :
  outcome (save_part_to_file part directory os) = Ok out →
  is_file (final (save_part_to_file part directory os)) out.
Proof.
  intros (f & dk & c & _ & -> & Hr & Hn & Hd & ->)%save_part_to_file_ok.
  eexists _, _. by apply stat_after_write.
Qed.

Lemma read_parts_is_file reader temp_dir fd0 os fd :
  Forall (is_file os) (dict_values fd0) →
  outcome (read_parts reader temp_dir fd0 os) = Ok fd →
  Forall (is_file (final (read_parts reader temp_dir fd0 os))) (dict_values fd).
Proof.
  revert fd0 os. induction reader as [|[part|e] reader IH]; intros fd0 os Hall.
  - by intros [= <-].
  - cbn [read_parts]. unfold logger_info. rewrite bind_emit_run.
    cbn [outcome final]. destruct (part_name part) as [name|]; [|done].
    destruct (accepted name); [|by apply IH].
    rewrite bind_run.
    destruct (outcome (save_part_to_file part temp_dir os)) as [out|] eqn:Hs; [|done].
    cbn [outcome final]. apply IH.
    apply Forall_forall. intros x [->|Hx]%dict_values_set_elem.
    + by apply save_part_to_file_is_file.
    + rewrite Forall_forall in Hall.
      destruct (save_part_to_file_final part temp_dir os)
        as [->|(k0 & content0 & Hk0 & ->)]; [by apply Hall|].
      apply is_file_insert; [done | by apply Hall].
  - done.
Qed.

(** X5: When the loop over the parts ends, every path in the dictionary names
    a file of the tree, also a path that several parts were saved to. *)
Theorem read_parts_files_exist
    (reader : list (result Part)) (temp_dir : string) (os : OS) (fd : dict)
    (p : string) :
  outcome (read_parts reader temp_dir [] os) = Ok fd →
  p ∈ dict_values fd →
  is_file (final (read_parts reader temp_dir [] os)) p.
Proof.
  intros Ho Hp. eapply Forall_forall; [|done].
  apply read_parts_is_file; [constructor | done].
Qed.

(** ** What the handler leaves on the disk *)











Section Frame.

Variable weasyprint : EngineCall → OS → result bytes.




End Frame.

(** ** [tempfile.mkdtemp] *)




(** ** The calls into the engine *)

Lemma Ok_inj {A} (a b : A) : Ok a = Ok b → a = b.
Proof. by intros [= ->]. Qed.

Lemma engine_events_app l1 l2 :
  engine_events (l1 ++ l2) = engine_events l1 ++ engine_events l2.
Proof. apply omap_app. Qed.

Lemma engine_events_logs l : Forall is_log l → engine_events l = [].
Proof.
  induction 1 as [|ev l Hev _ IH]; [done|]. by destruct ev.
Qed.

Lemma engine_events_In c r l : In (Engine c r) l → (c, r) ∈ engine_events l.
Proof.
  induction l as [|ev l IH]; [done|]. intros [->|Hin].
  - by left.
  - destruct ev; try (right; by apply IH); by apply IH.
Qed.

Section Engine_calls.

Variable weasyprint : EngineCall → OS → result bytes.

Lemma after_parts_engine request d fd os :
  let a := after_parts weasyprint request d fd os in
  engine_calls (emitted a) `prefix_of` engine_plan d fd
  ∧ (∀ resp, outcome a = Ok resp → engine_calls (emitted a) = engine_plan d fd)
  ∧ Forall succeeded (removelast (engine_events (emitted a))).
Proof.
  cbv zeta. unfold engine_plan, engine_calls.
  destruct (dict_get fd "html") as [h|] eqn:Hget.
  2: { rewrite (after_parts_no_html _ _ _ _ _ Hget).
       destruct (weasyprint FontConfiguration os); cbn; repeat split; try done;
         by repeat constructor. }
  unfold after_parts, logger_info.
  rewrite Hget, bind_emit_run, bind_engine_run.
  destruct (weasyprint FontConfiguration os) as [b0|e].
  2: { cbn. split; [by eexists|]. split; [done|constructor]. }
  rewrite bind_engine_run. cbn [outcome final emitted].
  destruct (weasyprint (HTML _ _) os) as [b1|e].
  2: { cbn. split; [by eexists|]. split; [done|by repeat constructor]. }
  rewrite bind_run.
  assert (∃ rc,
    (match dict_get fd "css" with
     | Some css_file =>
         engine weasyprint (CSS (CSS_filename css_file (URLFetcher (dict_values fd))));;
         mret (CSS_filename css_file (URLFetcher (dict_values fd)))
     | None => engine weasyprint (CSS (CSS_string default_css));;
               mret (CSS_string default_css)
     end) os
    = mkRun (match rc with Ok _ => Ok (stylesheet_of fd) | Raise e => Raise e end)
        os [Engine (CSS (stylesheet_of fd)) rc]) as [rc ->].
  { unfold stylesheet_of. destruct (dict_get fd "css") as [f|].
    - exists (weasyprint (CSS (CSS_filename f (URLFetcher (dict_values fd)))) os).
      rewrite bind_engine_run. by destruct (weasyprint _ os).
    - exists (weasyprint (CSS (CSS_string default_css)) os).
      rewrite bind_engine_run. by destruct (weasyprint _ os). }
  cbn [outcome final emitted].
  destruct rc as [b2|e].
  2: { cbn. split; [by eexists|]. split; [done|by repeat constructor]. }
  cbn [outcome final emitted].
  destruct (write_pdf_and_after weasyprint request d h [stylesheet_of fd]
              (attachments_of fd) os) as [(e & Ho & He)|(pdf & Ho & He)];
    rewrite Ho, He; cbn; (split; [done|]); (split; [done|]);
    by repeat constructor.
Qed.

(** The engine events of a run of the handler: none, or those of the
    part of the handler after the loop. *)
Lemma render_pdf_engine request os :
  let r := render_pdf weasyprint request os in
  engine_events (emitted r) = []
  ∨ ∃ parts d k,
      multipart request = Ok (map Ok parts)
      ∧ In (TemporaryDirectory d k) (emitted r)
      ∧ let fd := form_data_of d parts [] in
        engine_calls (emitted r) `prefix_of` engine_plan d fd
        ∧ (∀ resp, outcome r = Ok resp → engine_calls (emitted r) = engine_plan d fd)
        ∧ Forall succeeded (removelast (engine_events (emitted r))).
Proof.
  cbv zeta.
  destruct (render_pdf_inv weasyprint request os)
    as [(e & _ & _ & He)|[(reader & e & _ & _ & _ & He)|(reader & d & k & Hm & Hp)]].
  { left. by rewrite He. }
  { left. by rewrite He. }
  cbv zeta in Hp.
  pose proof (emits_read_parts reader d [] (final (mkdtemp os))) as Hlog.
  apply engine_events_logs in Hlog.
  destruct Hp as [(e & _ & _ & He)|(fd & Hfd & Ho & He)].
  { left. rewrite He. cbn. done. }
  apply read_parts_ok in Hfd as (parts & -> & -> & _).
  right. exists parts, d, k. split; [done|]. rewrite He. split; [by do 2 right; left|].
  cbv zeta. unfold engine_calls.
  change (engine_events (L_received :: L_processing :: TemporaryDirectory d k :: ?l))
    with (engine_events l).
  rewrite engine_events_app, Hlog. cbn [app]. rewrite Ho.
  apply after_parts_engine.
Qed.

End Engine_calls.

Lemma engine_plan_In request_parts d call r l :
  engine_calls l `prefix_of` engine_plan d (form_data_of d request_parts []) →
  In (Engine call r) l →
  call ∈ engine_plan d (form_data_of d request_parts []).
Proof.
  intros [rest ->] Hin%engine_events_In. apply elem_of_app. left.
  unfold engine_calls. apply list_elem_of_fmap. by exists (call, r).
Qed.

(** X10: The handler calls the engine in one order: the font configuration,
    the document, the stylesheet, [write_pdf]; it stops at the first call
    that raises, so that only the last call of a run can have failed, and
    a run that ends in a response has made all the calls of the plan:
    the font configuration alone when there is no document.  [write_pdf]
    is called at most once, and never before the three others returned. *)
Theorem engine_calls_in_order
    (weasyprint : EngineCall → OS → result bytes) (request : Request) (os : OS) :
  engine_calls (emitted (render_pdf weasyprint request os)) = []
  ∨ ∃ parts d k,
      multipart request = Ok (map Ok parts)
      ∧ In (TemporaryDirectory d k) (emitted (render_pdf weasyprint request os))
      ∧ engine_calls (emitted (render_pdf weasyprint request os))
        `prefix_of` engine_plan d (form_data_of d parts [])
      ∧ (∀ resp, outcome (render_pdf weasyprint request os) = Ok resp →
                 engine_calls (emitted (render_pdf weasyprint request os))
                 = engine_plan d (form_data_of d parts []))
      ∧ Forall succeeded
          (removelast (engine_events (emitted (render_pdf weasyprint request os)))).
Proof.
  cbv zeta. destruct (render_pdf_engine weasyprint request os)
    as [He|(parts & d & k & Hm & Htd & Hpre & Hall & Hok)].
  - left. unfold engine_calls. by rewrite He.
  - right. by exists parts, d, k.
Qed.

(** X11: The handler returns one of three responses and no other: the 400 for
    a request without a document, the 500 for a rendering that failed, or
    the document as a stream with the status 200, the headers of a PDF
    attachment and chunks that are not empty and hold at most
    [CHUNK_SIZE] bytes. *)
Theorem render_pdf_responses
    (weasyprint : EngineCall → OS → result bytes) (request : Request) (os : OS)
    (resp : Response) :
  outcome (render_pdf weasyprint request os) = Ok resp →
  resp = web_Response 400 "No html file provided."
  ∨ resp = web_Response 500 "PDF generation failed."
  ∨ ∃ body, resp = web_StreamResponse 200 "OK" pdf_headers body
            ∧ Forall (chunk_ok (N.to_nat CHUNK_SIZE)) body.
Proof.
  intros Hout.
  destruct (render_pdf_inv weasyprint request os)
    as [(e & _ & He & _)|[(reader & e & _ & He & _)|(reader & d & k & Hm & Hp)]].
  { rewrite He in Hout. discriminate Hout. }
  { rewrite He in Hout. discriminate Hout. }
  cbv zeta in Hp. destruct Hp as [(e & _ & He & _)|(fd & Hfd & Ho & _)].
  { rewrite He in Hout. discriminate Hout. }
  rewrite Ho in Hout. clear Ho.
  set (os1 := final (read_parts reader d [] (final (mkdtemp os)))) in *.
  destruct (dict_get fd "html") as [h|] eqn:Hget.
  - destruct (after_parts_html weasyprint request d fd os1 h Hget)
      as (pre & _ & [(e & Ho & _)|[(e & Ho & _)|(pdf & Ho & _)]]);
      rewrite Ho in Hout; [discriminate Hout| |].
    + right. left. by apply Ok_inj in Hout.
    + right. right. apply Ok_inj in Hout.
      exists (read_chunks (S (length pdf)) (N.to_nat CHUNK_SIZE) pdf).
      split; [by symmetry|]. apply read_chunks_bounded.
  - rewrite (after_parts_no_html _ _ _ _ _ Hget) in Hout.
    destruct (weasyprint FontConfiguration os1); [|discriminate Hout].
    left. by apply Ok_inj in Hout.
Qed.

(** X13: The document that is rendered is the file of the last part named
    [html], and its stylesheet is the file of the last part named [css],
    or the built-in one when there is none: of several parts under one
    of these names the last one counts. *)
Theorem last_part_wins
    (weasyprint : EngineCall → OS → result bytes) (request : Request) (os : OS)
    (h t : string) (css : list Stylesheet) (atts : list string) (r' : result bytes) :
  In (Engine (write_pdf h t css atts) r') (emitted (render_pdf weasyprint request os)) →
  ∃ parts d k html_part,
    multipart request = Ok (map Ok parts)
    ∧ In (TemporaryDirectory d k) (emitted (render_pdf weasyprint request os))
    ∧ last_named "html" parts = Some html_part
    ∧ h = path_in d html_part
    ∧ css = [match last_named "css" parts with
             | Some css_part =>
                 CSS_filename (path_in d css_part)
                   (URLFetcher (dict_values (form_data_of d parts [])))
             | None => CSS_string default_css
             end].
Proof.
  intros Hin.
  destruct (render_pdf_engine weasyprint request os)
    as [He|(parts & d & k & Hm & Htd & Hpre & _)].
  { apply engine_events_In in Hin. rewrite He in Hin. by apply elem_of_nil in Hin. }
  cbv zeta in Hpre. pose proof (engine_plan_In _ _ _ _ _ Hpre Hin) as Hplan.
  unfold engine_plan, stylesheet_of in Hplan.
  rewrite !form_data_of_get in Hplan.
  change (accepted "html") with true in Hplan.
  change (accepted "css") with true in Hplan. cbn [dict_get] in Hplan.
  destruct (last_named "html" parts) as [html_part|] eqn:Hhtml.
  - exists parts, d, k, html_part. split; [done|]. split; [done|]. split; [done|].
    repeat (apply elem_of_cons in Hplan as [Hplan|Hplan]; [try done|]).
    + injection Hplan as -> -> -> ->. split; [done|].
      by destruct (last_named "css" parts).
    + by apply elem_of_nil in Hplan.
  - repeat (apply elem_of_cons in Hplan as [Hplan|Hplan]; [try done|]).
    by apply elem_of_nil in Hplan.
Qed.

(** X14: Through the fetchers that the handler gives to the engine, a URL that
    is no [data:] URL is fetched only if its path is, in the normal form
    of [os.path.abspath], the path that an accepted part of this very
    request was saved under. *)
Theorem fetcher_allows_uploads_only
    (weasyprint : EngineCall → OS → result bytes) (request : Request) (os : OS)
    (urlparse : string → result ParseResult) (getcwd : string)
    (call : EngineCall) (r : result bytes) (valid_paths : list string)
    (url : string) (parsed : ParseResult) :
  In (Engine call r) (emitted (render_pdf weasyprint request os)) →
  URLFetcher valid_paths ∈ fetchers_of call →
  urlparse url = Ok parsed →
  scheme parsed ≠ "data" →
  URLFetcher_call urlparse getcwd valid_paths url = default_url_fetcher url →
  ∃ parts d k p,
    multipart request = Ok (map Ok parts)
    ∧ In (TemporaryDirectory d k) (emitted (render_pdf weasyprint request os))
    ∧ p ∈ parts
    ∧ is_accepted p = true
    ∧ abspath getcwd (path parsed) = path_in d p.
Proof.
  intros Hin Hf Hparse Hscheme Hcall.
  destruct (render_pdf_engine weasyprint request os)
    as [He|(parts & d & k & Hm & Htd & Hpre & _)].
  { apply engine_events_In in Hin. rewrite He in Hin. by apply elem_of_nil in Hin. }
  cbv zeta in Hpre. pose proof (engine_plan_In _ _ _ _ _ Hpre Hin) as Hplan.
  set (fd := form_data_of d parts []) in *.
  assert (valid_paths = dict_values fd) as ->.
  { unfold engine_plan in Hplan.
    apply elem_of_cons in Hplan as [->|Hplan]; [by apply elem_of_nil in Hf|].
    destruct (dict_get fd "html") as [h|]; [|by apply elem_of_nil in Hplan].
    apply elem_of_cons in Hplan as [->|Hplan].
    { apply list_elem_of_singleton in Hf. congruence. }
    apply elem_of_cons in Hplan as [->|Hplan].
    { unfold stylesheet_of in Hf. destruct (dict_get fd "css").
      - apply list_elem_of_singleton in Hf. congruence.
      - by apply elem_of_nil in Hf. }
    apply list_elem_of_singleton in Hplan as ->. by apply elem_of_nil in Hf. }
  revert Hcall. unfold URLFetcher_call. rewrite Hparse.
  apply eqb_false in Hscheme. rewrite Hscheme.
  destruct (_ && _); [|done].
  destruct (bool_decide_reflect (abspath getcwd (path parsed) ∈ dict_values fd))
    as [Hmem|]; [|done].
  intros _. apply form_data_of_values in Hmem as [Hmem|(p & Hp & Hacc & Heq)].
  { by apply elem_of_nil in Hmem. }
  by exists parts, d, k, p.
Qed.

(** X7: Parts under names that are not accepted change nothing but the log:
    the handler gives the same response or exception, leaves the same
    machine and makes the same calls into the engine, with the same
    results, as for the request without these parts. *)
Theorem unknown_parts_ignored
    (weasyprint : EngineCall → OS → result bytes) (request : Request) (os : OS) :
  outcome (render_pdf weasyprint request os)
  = outcome (render_pdf weasyprint (without_skipped request) os)
  ∧ final (render_pdf weasyprint request os)
    = final (render_pdf weasyprint (without_skipped request) os)
  ∧ engine_events (emitted (render_pdf weasyprint request os))
    = engine_events (emitted (render_pdf weasyprint (without_skipped request) os)).
Proof.
  cbv zeta.
  pose proof (render_pdf_run weasyprint request os) as Hrun.
  pose proof (render_pdf_run weasyprint (without_skipped request) os) as Hrun'.
  cbv zeta in Hrun, Hrun'. unfold without_skipped in *. cbn [multipart] in Hrun'.
  destruct (multipart request) as [reader|e]; [|by rewrite Hrun, Hrun'].
  destruct (outcome (mkdtemp os)) as [[d k]|e]; [|by rewrite Hrun, Hrun'].
  rewrite Hrun, Hrun'. cbn [outcome final emitted]. clear Hrun Hrun'.
  rewrite !render_in_split, !bind_run.
  set (os1 := final (mkdtemp os)).
  destruct (read_parts_skipped reader d [] os1) as [Ho Hf]. cbv zeta in Ho, Hf.
  rewrite <- Ho, <- Hf.
  change (engine_events (?a :: ?b :: TemporaryDirectory d k :: ?l))
    with (engine_events l).
  pose proof (engine_events_logs _ (emits_read_parts reader d [] os1)) as Hl.
  pose proof (engine_events_logs _
    (emits_read_parts (filter (λ item, skipped item = false) reader) d [] os1)) as Hl'.
  destruct (outcome (read_parts reader d [] os1)) as [fd|e];
    cbn [outcome final emitted]; rewrite ?engine_events_app, ?Hl, ?Hl'; done.
Qed.

(** ** Paths that the fetcher cannot reach *)

Lemma split_slash_single c : no_slash c = true → split_slash c = [c].
Proof.
  induction c as [|a c IH]; [done|]. cbn [no_slash split_slash].
  intros [Ha Hc]%andb_true_iff. apply negb_true_iff in Ha. rewrite Ha.
  by rewrite (IH Hc).
Qed.

Lemma split_slash_join comps :
  Forall (λ c, no_slash c = true) comps → comps ≠ [] →
  split_slash (join_slash comps) = comps.
Proof.
  induction 1 as [|c comps Hc Hall IH]; [done|]. intros _.
  destruct comps as [|c' comps]; [by apply split_slash_single|].
  change (join_slash (c :: c' :: comps)) with (c +:+ "/" +:+ join_slash (c' :: comps)).
  by rewrite split_slash_app_slash, split_slash_single, IH.
Qed.

Lemma split_slash_slash s : split_slash (String slash s) = "" :: split_slash s.
Proof. reflexivity. Qed.

Lemma lexically_normal_not_dotted p : lexically_normal p → ¬ dotted p.
Proof.
  intros (n & comps & Hn & Hall & ->).
  assert (Forall (λ c, c ≠ "." ∧ c ≠ "..") (split_slash (join_slash comps))) as Hj.
  { destruct comps as [|c comps]; [by repeat constructor|].
    rewrite split_slash_join; [|by eapply Forall_impl; [done|]; intros ? (_&_&_&?)|done].
    eapply Forall_impl; [done|]. by intros ? (_&?&?&_). }
  assert (Forall (λ c, c ≠ "." ∧ c ≠ "..")
            (split_slash (repeat_slash n +:+ join_slash comps))) as Hp.
  { destruct Hn as [->| ->]; cbn [repeat_slash]; rewrite !app_cons, app_empty,
      !split_slash_slash; by repeat constructor. }
  rewrite Forall_forall in Hp. intros [Hd|Hd]; apply Hp in Hd; by destruct Hd.
Qed.

(** X15: An entry of the valid paths with a [.] or [..] component is dead: the
    fetcher compares with the normal form of the path of the URL, which
    has no such component, so that the entry permits no URL at all. *)
Theorem URLFetcher_dotted_paths_are_dead
    (urlparse : string → result ParseResult) (getcwd : string)
    (valid_paths : list string) (url : string) :
  isabs getcwd = true →
  URLFetcher_call urlparse getcwd valid_paths url
  = URLFetcher_call urlparse getcwd (filter (λ p, ¬ dotted p) valid_paths) url.
Proof.
  intros Habs. unfold URLFetcher_call.
  destruct (urlparse url) as [parsed|e]; [|done].
  destruct (String.eqb (scheme parsed) "data"); [done|].
  destruct (_ && _); [|done].
  pose proof (lexically_normal_not_dotted _ (abspath_normal getcwd (path parsed) Habs)).
  destruct (bool_decide_reflect (abspath getcwd (path parsed) ∈ valid_paths)) as [Hin|Hin].
  - rewrite bool_decide_eq_true_2; [done|]. by apply list_elem_of_filter.
  - rewrite bool_decide_eq_false_2; [done|]. by intros [_ ?]%list_elem_of_filter.
Qed.

(** ** A part without a name *)

Lemma read_parts_nameless parts p rest temp_dir form_data os :
  part_name p = None →
  ∃ e, outcome (read_parts (map Ok parts ++ Ok p :: rest) temp_dir form_data os) = Raise e
       ∧ is_Exc e.
Proof.
  intros Hp. revert form_data os. induction parts as [|q parts IH]; intros form_data os.
  - cbn [map app read_parts]. unfold logger_info. rewrite bind_emit_run, Hp.
    by eexists.
  - cbn [map app read_parts]. unfold logger_info. rewrite bind_emit_run.
    cbn [outcome]. destruct (part_name q) as [name|]; [|by eexists].
    destruct (accepted name); [|apply IH].
    rewrite bind_run.
    destruct (outcome (save_part_to_file q temp_dir os)) as [out|e] eqn:Hs.
    + cbn [outcome]. apply IH.
    + exists e. split; [done|]. by eapply raises_save_part_to_file.
Qed.

(** X8: A part without a name, which [part.name.startswith] cannot take, ends
    the request in an exception: the handler returns no response, the
    engine is not called, and the client reads the status 500. *)
Theorem nameless_part_aborts
    (weasyprint : EngineCall → OS → result bytes) (request : Request) (os : OS)
    (parts : list Part) (p : Part) (rest : list (result Part)) :
  multipart request = Ok (map Ok parts ++ Ok p :: rest) →
  part_name p = None →
  ∃ e, outcome (render_pdf weasyprint request os) = Raise e
       ∧ is_Exc e
       ∧ client_status (outcome (render_pdf weasyprint request os)) = 500
       ∧ engine_events (emitted (render_pdf weasyprint request os)) = [].
Proof.
  intros Hm Hp.
  destruct (render_pdf_inv weasyprint request os)
    as [(e & Hm' & _)|[(reader & e & _ & Ho & He & Hem)|(reader & d & k & Hm' & Hr)]].
  { congruence. }
  { exists e. rewrite Ho, Hem. destruct e; done. }
  rewrite Hm in Hm'. injection Hm' as <-. cbv zeta in Hr.
  destruct (read_parts_nameless parts p rest d [] (final (mkdtemp os)) Hp)
    as (e & Ho & He).
  destruct Hr as [(e' & Ho' & Hout & Hem)|(fd & Hfd & _)]; [|congruence].
  exists e'. assert (e' = e) as -> by congruence.
  rewrite Hout, Hem. split; [done|]. split; [done|]. split; [by destruct e|].
  change (engine_events (L_received :: L_processing :: TemporaryDirectory d k :: ?l))
    with (engine_events l).
  apply engine_events_logs, emits_read_parts.
Qed.

(** ** The log of the loop *)

Lemma save_part_to_file_ok_run part directory os out :
  outcome (save_part_to_file part directory os) = Ok out →
  out = path_in directory part
  ∧ emitted (save_part_to_file part directory os)
    = [Log INFO (Saved_part (part_name part) out) None].
Proof.
  intros Hout. apply save_part_to_file_ok in Hout as Hok.
  destruct Hok as (filename & dk & c & Hf & -> & Hr & Hn & Hd & Hfin).
  assert (outcome (open_wb (os_path_join directory filename) os) = Ok (dk ++ [c])) as Ho.
  { unfold open_wb. rewrite Hr, Hn. by destruct (fs os !! (dk ++ [c])) as [[]|]. }
  rewrite (save_part_to_file_run _ _ _ _ _ Hf Ho). unfold path_in. by rewrite Hf.
Qed.

(** X6: A loop that gets through all the parts logs, part by part in the order
    of the request, the name of the part and, for an accepted part, the
    path it was saved under; it logs nothing else, and never that a file
    was not found after writing. *)
Theorem read_parts_log
    (reader : list (result Part)) (temp_dir : string) (form_data : dict) (os : OS)
    (fd : dict) :
  outcome (read_parts reader temp_dir form_data os) = Ok fd →
  emitted (read_parts reader temp_dir form_data os)
  = flat_map (part_log temp_dir) (reader_parts reader).
Proof.
  revert form_data os. induction reader as [|[part|e] reader IH]; intros form_data os.
  - done.
  - change (reader_parts (Ok part :: reader)) with (part :: reader_parts reader).
    cbn [read_parts flat_map]. unfold logger_info. rewrite bind_emit_run.
    cbn [outcome emitted]. unfold part_log at 1, is_accepted.
    destruct (part_name part) as [name|] eqn:Hname; [|done].
    destruct (accepted name).
    + rewrite bind_run.
      destruct (outcome (save_part_to_file part temp_dir os)) as [out|] eqn:Hs; [|done].
      apply save_part_to_file_ok_run in Hs as [-> ->].
      cbn [outcome emitted app]. intros Ho. by rewrite (IH _ _ Ho), Hname.
    + intros Ho. cbn [app]. by rewrite (IH _ _ Ho).
  - done.
Qed.

(** ** The response 400 *)

(** X12: The handler answers 400 only to a request that has no part named
    [html]: with such a part every response is the 500 or the document. *)
Theorem bad_request_only_without_html
    (weasyprint : EngineCall → OS → result bytes) (request : Request) (os : OS)
    (resp : Response) :
  outcome (render_pdf weasyprint request os) = Ok resp →
  response_status resp = 400 →
  Forall (λ p, part_name p ≠ Some "html") (parts_of request).
Proof.
  intros Hout Hstatus.
  destruct (render_pdf_inv weasyprint request os)
    as [(e & _ & He & _)|[(reader & e & _ & He & _)|(reader & d & k & Hm & Hp)]].
  { rewrite He in Hout. discriminate Hout. }
  { rewrite He in Hout. discriminate Hout. }
  cbv zeta in Hp. destruct Hp as [(e & _ & He & _)|(fd & Hfd & Ho & _)].
  { rewrite He in Hout. discriminate Hout. }
  rewrite Ho in Hout. clear Ho.
  set (os1 := final (read_parts reader d [] (final (mkdtemp os)))) in *.
  apply read_parts_ok in Hfd as (parts & -> & -> & _).
  rewrite (parts_of_Ok _ _ Hm).
  destruct (dict_get (form_data_of d parts []) "html") as [h|] eqn:Hget.
  - destruct (after_parts_html weasyprint request d _ os1 h Hget)
      as (pre & _ & [(e & Ho & _)|[(e & Ho & _)|(pdf & Ho & _)]]);
      rewrite Ho in Hout; [discriminate Hout| |];
      apply Ok_inj in Hout; subst resp; discriminate Hstatus.
  - rewrite form_data_of_get in Hget. change (accepted "html") with true in Hget.
    destruct (last_named "html" parts) as [p|] eqn:Hlast; [done|].
    apply last_None in Hlast. apply Forall_forall. intros p Hp Hname.
    assert (p ∈ filter (λ p, part_name p = Some "html") parts) as Hin
      by by apply list_elem_of_filter.
    rewrite Hlast in Hin. by apply elem_of_nil in Hin.
Qed.

(** ** The further properties on examples *)


Lemma stream_file_chunks_witness :
  ∃ body,
    stream_file (request_of []) "/tmp/output.pdf" "application/pdf" example_os_with_pdf
    = mkRun
        (Ok (web_StreamResponse 200 "OK"
               [("Content-Type", "application/pdf");
                ("Content-Disposition",
                 "attachment; filename=" +:+ dq +:+ basename "/tmp/output.pdf" +:+ dq)]
               body))
        example_os_with_pdf []
    ∧ concat body = pdf_bytes
    ∧ Forall (chunk_ok (N.to_nat CHUNK_SIZE)) body.
Proof.
  apply (stream_file_chunks (request_of []) "/tmp/output.pdf" "application/pdf"
           example_os_with_pdf ["tmp"; "output.pdf"] pdf_bytes).
  vm_compute. reflexivity.
Defined.

Lemma save_part_to_file_round_trip_witness :
  outcome (open_rb "/tmp/tmpab12cd34/logo.png"
             (final (save_part_to_file chunked_part "/tmp/tmpab12cd34"
                       example_os_in_request)))
  = Ok (written (part_chunks chunked_part))
  ∧ emitted (save_part_to_file chunked_part "/tmp/tmpab12cd34" example_os_in_request)
    = [Log INFO (Saved_part (part_name chunked_part) "/tmp/tmpab12cd34/logo.png") None]
  ∧ (Forall (λ chunk, chunk ≠ []) (part_chunks chunked_part) →
     written (part_chunks chunked_part) = concat (part_chunks chunked_part)).
Proof.
  apply (save_part_to_file_round_trip chunked_part "/tmp/tmpab12cd34"
           example_os_in_request "/tmp/tmpab12cd34/logo.png").
  vm_compute. reflexivity.
Defined.


Lemma read_parts_dictionary_witness :
  ∃ parts,
    (map Ok parts_html_twice) = map Ok parts
    ∧ NoDup (dict_keys [("html", "/tmp/tmpab12cd34/final.html")])
    ∧ ∀ name, dict_get [("html", "/tmp/tmpab12cd34/final.html")] name
              = if accepted name
                then path_in "/tmp/tmpab12cd34" <$> last_named name parts
                else None.
Proof.
  apply (read_parts_dictionary (map Ok parts_html_twice) "/tmp/tmpab12cd34"
           example_os_in_request [("html", "/tmp/tmpab12cd34/final.html")]).
  vm_compute. reflexivity.
Defined.

Lemma read_parts_files_exist_witness :
  is_file (final (read_parts (map Ok parts_html_twice) "/tmp/tmpab12cd34" []
                    example_os_in_request))
    "/tmp/tmpab12cd34/final.html".
Proof.
  apply (read_parts_files_exist (map Ok parts_html_twice) "/tmp/tmpab12cd34"
           example_os_in_request [("html", "/tmp/tmpab12cd34/final.html")]).
  - vm_compute. reflexivity.
  - constructor.
Defined.

Lemma read_parts_log_witness :
  emitted (read_parts (map Ok parts_html_twice) "/tmp/tmpab12cd34" [] example_os_in_request)
  = flat_map (part_log "/tmp/tmpab12cd34") (reader_parts (map Ok parts_html_twice)).
Proof.
  apply (read_parts_log (map Ok parts_html_twice) "/tmp/tmpab12cd34" [] example_os_in_request
           [("html", "/tmp/tmpab12cd34/final.html")]).
  vm_compute. reflexivity.
Defined.


Lemma render_pdf_responses_witness :
  web_StreamResponse 200 "OK" pdf_headers [pdf_bytes]
  = web_Response 400 "No html file provided."
  ∨ web_StreamResponse 200 "OK" pdf_headers [pdf_bytes]
    = web_Response 500 "PDF generation failed."
  ∨ ∃ body, web_StreamResponse 200 "OK" pdf_headers [pdf_bytes]
            = web_StreamResponse 200 "OK" pdf_headers body
            ∧ Forall (chunk_ok (N.to_nat CHUNK_SIZE)) body.
Proof.
  apply (render_pdf_responses weasyprint_ok request_with_attachments example_os).
  vm_compute. reflexivity.
Defined.

Lemma last_part_wins_witness :
  ∃ parts d k html_part,
    multipart request_html_twice = Ok (map Ok parts)
    ∧ In (TemporaryDirectory d k)
         (emitted (render_pdf weasyprint_ok request_html_twice example_os))
    ∧ last_named "html" parts = Some html_part
    ∧ "/tmp/tmpab12cd34/final.html" = path_in d html_part
    ∧ [CSS_string default_css]
      = [match last_named "css" parts with
         | Some css_part =>
             CSS_filename (path_in d css_part)
               (URLFetcher (dict_values (form_data_of d parts [])))
         | None => CSS_string default_css
         end].
Proof.
  apply (last_part_wins weasyprint_ok request_html_twice example_os
           "/tmp/tmpab12cd34/final.html" "/tmp/tmpab12cd34/output.pdf"
           [CSS_string default_css] [] (Ok pdf_bytes)).
  find_in.
Defined.

Lemma fetcher_allows_uploads_only_witness :
  ∃ parts d k p,
    multipart request_with_attachments = Ok (map Ok parts)
    ∧ In (TemporaryDirectory d k)
         (emitted (render_pdf weasyprint_ok request_with_attachments example_os))
    ∧ p ∈ parts
    ∧ is_accepted p = true
    ∧ abspath "/srv" "/tmp/tmpab12cd34/img/../logo.png" = path_in d p.
Proof.
  apply (fetcher_allows_uploads_only weasyprint_ok request_with_attachments example_os
           urlparse_model "/srv"
           (HTML "/tmp/tmpab12cd34/index.html"
              (URLFetcher ["/tmp/tmpab12cd34/index.html"; "/tmp/tmpab12cd34/terms.pdf";
                           "/tmp/tmpab12cd34/logo.png"; "/tmp/tmpab12cd34/data.csv"]))
           (Ok pdf_bytes)
           ["/tmp/tmpab12cd34/index.html"; "/tmp/tmpab12cd34/terms.pdf";
            "/tmp/tmpab12cd34/logo.png"; "/tmp/tmpab12cd34/data.csv"]
           "file:///tmp/tmpab12cd34/img/../logo.png"
           (mkParseResult "file" "" "/tmp/tmpab12cd34/img/../logo.png" "" "" "")).
  - find_in.
  - constructor.
  - vm_compute. reflexivity.
  - discriminate.
  - vm_compute. reflexivity.
Defined.

Lemma URLFetcher_dotted_paths_are_dead_witness :
  URLFetcher_call urlparse_model "/srv"
    ["/tmp/tmpab12cd34/./logo.png"; "/tmp/tmpab12cd34/index.html"]
    "file:///tmp/tmpab12cd34/./logo.png"
  = URLFetcher_call urlparse_model "/srv"
      (filter (λ p, ¬ dotted p)
         ["/tmp/tmpab12cd34/./logo.png"; "/tmp/tmpab12cd34/index.html"])
      "file:///tmp/tmpab12cd34/./logo.png".
Proof.
  apply (URLFetcher_dotted_paths_are_dead urlparse_model "/srv"
           ["/tmp/tmpab12cd34/./logo.png"; "/tmp/tmpab12cd34/index.html"]
           "file:///tmp/tmpab12cd34/./logo.png").
  reflexivity.
Defined.

Lemma nameless_part_aborts_witness :
  ∃ e, outcome (render_pdf weasyprint_ok request_nameless example_os) = Raise e
       ∧ is_Exc e
       ∧ client_status (outcome (render_pdf weasyprint_ok request_nameless example_os))
         = 500
       ∧ engine_events (emitted (render_pdf weasyprint_ok request_nameless example_os))
         = [].
Proof.
  apply (nameless_part_aborts weasyprint_ok request_nameless example_os
           [html_part] nameless_part []); reflexivity.
Defined.

Lemma bad_request_only_without_html_witness :
  Forall (λ p, part_name p ≠ Some "html") (parts_of request_css_only).
Proof.
  apply (bad_request_only_without_html weasyprint_ok request_css_only example_os
           (web_Response 400 "No html file provided.")).
  - vm_compute. reflexivity.
  - reflexivity.
Defined.
